(** * python-periphery: the MMIO class of [periphery/mmio.py]

    A shallow embedding of the [MMIO] class: the object's attributes, the
    [mmap] objects it refers to (kept in a store, since the object holds a
    reference to its mapping), and every method as a computation in a
    state-and-exception monad.  The library calls the class makes
    ([os.sysconf], [os.open], [mmap.mmap], [mmap.close], [os.close],
    [ctypes.<type>.from_buffer], [ctypes.cast], [bytearray]) are modelled
    next to it, with the checks CPython performs in them. *)

From stdpp Require Import gmap strings list.
From Stdlib Require Import ZArith Lia.
From Stdlib.Strings Require Byte.

Open Scope Z_scope.

(** ** Python values, exceptions and results *)

Abbreviation byte := Byte.byte.

(** The classes of argument the methods tell apart with [isinstance]. *)
#[warnings="-register-all"]
Inductive pyval :=
| PyNone
| PyInt (n : Z)
| PyStr (s : string)
| PyBytes (b : list byte)
| PyByteArray (b : list byte)
| PyList (l : list pyval).

Inductive exn :=
| TypeError (msg : string)
| ValueError (msg : string)
| OverflowError (msg : string)
| ZeroDivisionError (msg : string)
| AttributeError (msg : string)
| OSError (errno : Z) (strerror : string)
| BufferError (msg : string)
| MMIOError (errno : Z) (msg : string).

Inductive result (A : Type) :=
| Return (a : A)
| Raise (e : exn).
Arguments Return {A} a.
Arguments Raise {A} e.

(** The two [ValueError]s the class raises itself; the specification calls
    them OutOfBoundsError and RangeError. *)
Definition OutOfBoundsError : exn := ValueError "Offset out of bounds.".
Definition RangeError : exn := ValueError "Value out of bounds.".

(** ** The store *)

(** References to [mmap] objects. *)
Abbreviation loc := positive.

(** An [mmap.mmap] object: the mapped bytes, whether [close()] was called on
    it, and the number of exports of its buffer: the ctypes objects made from
    it with [from_buffer] that are still alive once the method that made them
    has returned. *)
Record mmap_t := { buf : list byte; closed : bool; exports : nat }.

(** The attributes of an [MMIO] object.  [mapping] is [None] or a reference;
    the other attributes do not exist until they are first assigned, which is
    [None] here. *)
Record MMIO := {
  mapping : option loc;
  _physaddr : option Z;
  _size : option Z;
  _aligned_physaddr : option Z;
  _aligned_size : option Z;
  _fd : option pyval
}.

Record State := { self : MMIO; heap : gmap loc mmap_t }.

(** ** The monad: state and exceptions *)

Definition M (A : Type) : Type := State -> result A * State.

Definition ret {A} (a : A) : M A := fun s => (Return a, s).
Definition raise {A} (e : exn) : M A := fun s => (Raise e, s).
Definition bind {A B} (m : M A) (k : A -> M B) : M B :=
  fun s => match m s with
           | (Return a, s') => k a s'
           | (Raise e, s') => (Raise e, s')
           end.

#[global] Instance M_ret : MRet M := @ret.
#[global] Instance M_bind : MBind M := fun A B k m => bind m k.

(** [try: body except OSError as e: handler(e.errno, e.strerror)] *)
Definition try_OSError {A} (body : M A) (handler : Z -> string -> M A) : M A :=
  fun s => match body s with
           | (Raise (OSError errno strerror), s') => handler errno strerror s'
           | r => r
           end.

(** Reading an attribute of [self]; an attribute never assigned raises. *)
Definition getattr {A} (f : MMIO -> option A) (name : string) : M A :=
  fun s => match f (self s) with
           | Some v => (Return v, s)
           | None => (Raise (AttributeError name), s)
           end.

Definition get_mapping : M (option loc) := fun s => (Return (mapping (self s)), s).

Definition update_self (f : MMIO -> MMIO) : M unit :=
  fun s => (Return tt, {| self := f (self s); heap := heap s |}).

Definition set_mapping (v : option loc) : M unit :=
  update_self (fun o => {| mapping := v; _physaddr := _physaddr o; _size := _size o;
                           _aligned_physaddr := _aligned_physaddr o;
                           _aligned_size := _aligned_size o; _fd := _fd o |}).
Definition set_physaddr (v : Z) : M unit :=
  update_self (fun o => {| mapping := mapping o; _physaddr := Some v; _size := _size o;
                           _aligned_physaddr := _aligned_physaddr o;
                           _aligned_size := _aligned_size o; _fd := _fd o |}).
Definition set_size (v : Z) : M unit :=
  update_self (fun o => {| mapping := mapping o; _physaddr := _physaddr o; _size := Some v;
                           _aligned_physaddr := _aligned_physaddr o;
                           _aligned_size := _aligned_size o; _fd := _fd o |}).
Definition set_aligned_physaddr (v : Z) : M unit :=
  update_self (fun o => {| mapping := mapping o; _physaddr := _physaddr o; _size := _size o;
                           _aligned_physaddr := Some v;
                           _aligned_size := _aligned_size o; _fd := _fd o |}).
Definition set_aligned_size (v : Z) : M unit :=
  update_self (fun o => {| mapping := mapping o; _physaddr := _physaddr o; _size := _size o;
                           _aligned_physaddr := _aligned_physaddr o;
                           _aligned_size := Some v; _fd := _fd o |}).
Definition set_fd (v : pyval) : M unit :=
  update_self (fun o => {| mapping := mapping o; _physaddr := _physaddr o; _size := _size o;
                           _aligned_physaddr := _aligned_physaddr o;
                           _aligned_size := _aligned_size o; _fd := Some v |}).

(** ** Bytes and integers *)

Definition Z_of_byte (b : byte) : Z := Z.of_N (Byte.to_N b).

Definition byte_of_Z (z : Z) : byte :=
  match Byte.of_N (Z.to_N (z mod 256)) with
  | Some b => b
  | None => Byte.x00
  end.

(** The [n] low bytes of [v], least significant first. *)
Fixpoint le_bytes (n : nat) (v : Z) : list byte :=
  match n with
  | O => []
  | S n' => byte_of_Z v :: le_bytes n' (v / 256)
  end.

Fixpoint le_value (bs : list byte) : Z :=
  match bs with
  | [] => 0
  | b :: bs' => Z_of_byte b + 256 * le_value bs'
  end.

(** [sys.byteorder]: ctypes integers are stored in the byte order of the host. *)
Inductive endianness := Little | Big.

Definition encode (e : endianness) (n : nat) (v : Z) : list byte :=
  match e with
  | Little => le_bytes n v
  | Big => rev (le_bytes n v)
  end.

Definition decode (e : endianness) (bs : list byte) : Z :=
  match e with
  | Little => le_value bs
  | Big => le_value (rev bs)
  end.

(** Overwriting [bs] into [data] from index [off] on. *)
Definition store (off : nat) (bs : list byte) (data : list byte) : list byte :=
  take off data ++ bs ++ drop (off + length bs) data.

Definition slice (off n : nat) (data : list byte) : list byte :=
  take n (drop off data).

(** ** The platform *)

(** What the operating system answers to the calls [_open] makes: the page
    size, the byte order of the host, whether opening, mapping and closing
    [/dev/mem] succeed (a failure comes with [errno] and [strerror]), and the
    bytes found in physical memory.  The mapped bytes behave as storage: what
    is written is what is read back. *)
Record Env := {
  SC_PAGESIZE : Z;
  byteorder : endianness;
  dev_mem_open : (Z * string) + Z;
  dev_mem_mmap : option (Z * string);
  dev_mem_close : option (Z * string);
  physmem : Z -> byte
}.

Section Periphery.

Variable env : Env.

(** *** [os] and [mmap] *)

Definition os_sysconf_pagesize : M Z := mret (SC_PAGESIZE env).

(** [os.open("/dev/mem", os.O_RDWR | os.O_SYNC)] *)
Definition os_open_dev_mem : M Z :=
  match dev_mem_open env with
  | inl (errno, strerror) => raise (OSError errno strerror)
  | inr fd => mret fd
  end.

Definition os_close (fd : Z) : M unit :=
  match dev_mem_close env with
  | Some (errno, strerror) => raise (OSError errno strerror)
  | None => mret tt
  end.

Definition alloc (m : mmap_t) : M loc :=
  fun s => let r := fresh (dom (heap s)) in
           (Return r, {| self := self s; heap := <[r := m]> (heap s) |}).

(** [mmap.mmap(fd, length, flags=MAP_SHARED, prot=PROT_READ|PROT_WRITE,
    offset=offset)]: CPython rejects a negative length or offset before it
    asks the operating system. *)
Definition mmap_mmap (fd length offset : Z) : M loc :=
  if length <? 0 then raise (OverflowError "memory mapped length must be positive")
  else if offset <? 0 then raise (OverflowError "memory mapped offset must be positive")
  else match dev_mem_mmap env with
       | Some (errno, strerror) => raise (OSError errno strerror)
       | None =>
           alloc {| buf := map (fun i => physmem env (offset + Z.of_nat i))
                               (seq 0 (Z.to_nat length));
                    closed := false; exports := 0 |}
       end.

(** [m.close()] on an [mmap] object: CPython refuses to close a mapping
    while an export of its buffer exists, and closes it otherwise (closing a
    closed one again is allowed). *)
Definition mmap_close (r : loc) : M unit :=
  fun s =>
    match heap s !! r with
    | Some m =>
        if (0 <? exports m)%nat
        then (Raise (BufferError "cannot close exported pointers exist"), s)
        else (Return tt,
              {| self := self s;
                 heap := <[r := {| buf := buf m; closed := true; exports := exports m |}]>
                           (heap s) |})
    | None => (Return tt, s)
    end.

(** Python's [a % b] on integers. *)
Definition py_mod (a b : Z) : M Z :=
  if b =? 0 then raise (ZeroDivisionError "integer modulo by zero")
  else mret (a mod b).

(** *** [ctypes] *)

(** A ctypes object made by [from_buffer]: it shares the memory of the
    [mmap] object [b_obj], from byte [b_off] on. *)
Record cdata := { b_obj : loc; b_off : nat }.

(** [T.from_buffer(source, offset)] for a ctypes type [T] of [size] bytes:
    the source must be a buffer, here a live [mmap] object; the offset must
    not be negative; and [size] bytes must be left from the offset on.  The
    object made is an export of the buffer for as long as it lives; the read
    and write methods drop theirs before they return (it is a temporary or a
    local variable, freed by reference counting), so that [exports] is left
    as it is here and is raised only where the object lives on, in
    [cast_pointer].  The texts of the messages are shortened.  Offsets beyond the range of a C
    [ssize_t], which CPython rejects earlier, with [OverflowError], are not
    told apart from the others. *)
Definition from_buffer (size : Z) (source : option loc) (offset : Z) : M cdata :=
  fun s =>
    match source with
    | None =>
        (Raise (TypeError "memoryview: a bytes-like object is required, not 'NoneType'"), s)
    | Some r =>
        match heap s !! r with
        | Some m =>
            if closed m then (Raise (ValueError "mmap closed or invalid"), s)
            else if offset <? 0 then (Raise (ValueError "offset cannot be negative"), s)
            else if Z.of_nat (length (buf m)) - offset <? size
                 then (Raise (ValueError "Buffer size too small"), s)
                 else (Return {| b_obj := r; b_off := Z.to_nat offset |}, s)
        | None => (Raise (ValueError "mmap closed or invalid"), s)
        end
    end.

Definition contents (r : loc) (s : State) : list byte :=
  from_option buf [] (heap s !! r).

(** [c.value] for an unsigned integer type of [n] bytes. *)
Definition get_value (n : nat) (c : cdata) : M Z :=
  fun s => (Return (decode (byteorder env) (slice (b_off c) n (contents (b_obj c) s))), s).

Definition poke (r : loc) (off : nat) (bs : list byte) : M unit :=
  fun s => (Return tt,
            {| self := self s;
               heap := alter (fun m => {| buf := store off bs (buf m); closed := closed m;
                                          exports := exports m |})
                             r (heap s) |}).

(** [c.value = v] for an unsigned integer type of [n] bytes: ctypes keeps
    the [n] low bytes of [v]. *)
Definition set_value (n : nat) (c : cdata) (v : Z) : M unit :=
  poke (b_obj c) (b_off c) (encode (byteorder env) n v).

(** [ctypes.c_uint8 * length] *)
Definition c_uint8_array (length : Z) : M Z :=
  if length <? 0 then raise (ValueError "Array length must be >= 0")
  else mret length.

(** [bytes(bytearray(c))] for an array [c] of [length] bytes. *)
Definition array_bytes (length : Z) (c : cdata) : M (list byte) :=
  fun s => (Return (slice (b_off c) (Z.to_nat length) (contents (b_obj c) s)), s).

(** [c[i] = b] *)
Definition array_setitem (c : cdata) (i : nat) (b : byte) : M unit :=
  poke (b_obj c) (b_off c + i) [b].

(** *** Builtins on the [data] argument of [write] *)

Definition py_len (data : pyval) : Z :=
  match data with
  | PyBytes b | PyByteArray b => Z.of_nat (length b)
  | PyList l => Z.of_nat (length l)
  | PyStr s => Z.of_nat (String.length s)
  | _ => 0
  end.

Definition byte_of_item (v : pyval) : M byte :=
  match v with
  | PyInt n =>
      if (n <? 0) || (255 <? n) then raise (ValueError "byte must be in range(0, 256)")
      else mret (byte_of_Z n)
  | _ => raise (TypeError "object cannot be interpreted as an integer")
  end.

Fixpoint bytes_of_items (l : list pyval) : M (list byte) :=
  match l with
  | [] => mret []
  | v :: l' => b ← byte_of_item v; bs ← bytes_of_items l'; mret (b :: bs)
  end.

(** [bytearray(data)] for the three classes [write] lets through. *)
Definition bytearray (data : pyval) : M (list byte) :=
  match data with
  | PyBytes b | PyByteArray b => mret b
  | PyList l => bytes_of_items l
  | _ => raise (TypeError "cannot convert object to bytearray")
  end.

(** ** The class [MMIO] *)

Definition _open (physaddr size : pyval) : M unit :=
  match physaddr with
  | PyInt physaddr =>
    match size with
    | PyInt size =>
        pagesize ← os_sysconf_pagesize;
        set_physaddr physaddr;;
        set_size size;;
        r ← py_mod physaddr pagesize;
        set_aligned_physaddr (physaddr - r);;
        aligned_physaddr ← getattr _aligned_physaddr "_aligned_physaddr";
        set_aligned_size (size + (physaddr - aligned_physaddr));;
        fd ← try_OSError os_open_dev_mem
               (fun errno strerror => raise (MMIOError errno ("Opening /dev/mem: " +:+ strerror)));
        try_OSError
          (aligned_size ← getattr _aligned_size "_aligned_size";
           aligned_physaddr ← getattr _aligned_physaddr "_aligned_physaddr";
           m ← mmap_mmap fd aligned_size aligned_physaddr;
           set_mapping (Some m))
          (fun errno strerror => raise (MMIOError errno ("Mapping /dev/mem: " +:+ strerror)));;
        try_OSError (os_close fd)
          (fun errno strerror => raise (MMIOError errno ("Closing /dev/mem: " +:+ strerror)))
    | _ => raise (TypeError "Invalid size type, should be integer.")
    end
  | _ => raise (TypeError "Invalid physaddr type, should be integer.")
  end.

Definition __init__ (physaddr size : pyval) : M unit :=
  set_mapping None;;
  _open physaddr size.

Definition _adjust_offset (offset : Z) : M Z :=
  physaddr ← getattr _physaddr "_physaddr";
  aligned_physaddr ← getattr _aligned_physaddr "_aligned_physaddr";
  mret (offset + (physaddr - aligned_physaddr)).

Definition _validate_offset (offset length : Z) : M unit :=
  aligned_size ← getattr _aligned_size "_aligned_size";
  if offset + length >? aligned_size then raise (ValueError "Offset out of bounds.")
  else mret tt.

Definition read32 (offset : pyval) : M Z :=
  match offset with
  | PyInt offset =>
      offset ← _adjust_offset offset;
      _validate_offset offset 4;;
      m ← get_mapping;
      c ← from_buffer 4 m offset;
      get_value 4 c
  | _ => raise (TypeError "Invalid offset type, should be integer.")
  end.

Definition read16 (offset : pyval) : M Z :=
  match offset with
  | PyInt offset =>
      offset ← _adjust_offset offset;
      _validate_offset offset 2;;
      m ← get_mapping;
      c ← from_buffer 2 m offset;
      get_value 2 c
  | _ => raise (TypeError "Invalid offset type, should be integer.")
  end.

Definition read8 (offset : pyval) : M Z :=
  match offset with
  | PyInt offset =>
      offset ← _adjust_offset offset;
      _validate_offset offset 1;;
      m ← get_mapping;
      c ← from_buffer 1 m offset;
      get_value 1 c
  | _ => raise (TypeError "Invalid offset type, should be integer.")
  end.

(** [length] is not checked by the method; it is taken as an integer. *)
Definition read (offset : pyval) (length : Z) : M (list byte) :=
  match offset with
  | PyInt offset =>
      offset ← _adjust_offset offset;
      _validate_offset offset length;;
      n ← c_uint8_array length;
      m ← get_mapping;
      c_byte_array ← from_buffer n m offset;
      array_bytes n c_byte_array
  | _ => raise (TypeError "Invalid offset type, should be integer.")
  end.

Definition write32 (offset value : pyval) : M unit :=
  match offset with
  | PyInt offset =>
    match value with
    | PyInt value =>
        if (value <? 0) || (value >? 0xffffffff)
        then raise (ValueError "Value out of bounds.")
        else
          offset ← _adjust_offset offset;
          _validate_offset offset 4;;
          m ← get_mapping;
          c ← from_buffer 4 m offset;
          set_value 4 c value
    | _ => raise (TypeError "Invalid value type, should be integer.")
    end
  | _ => raise (TypeError "Invalid offset type, should be integer.")
  end.

Definition write16 (offset value : pyval) : M unit :=
  match offset with
  | PyInt offset =>
    match value with
    | PyInt value =>
        if (value <? 0) || (value >? 0xffff)
        then raise (ValueError "Value out of bounds.")
        else
          offset ← _adjust_offset offset;
          _validate_offset offset 2;;
          m ← get_mapping;
          c ← from_buffer 2 m offset;
          set_value 2 c value
    | _ => raise (TypeError "Invalid value type, should be integer.")
    end
  | _ => raise (TypeError "Invalid offset type, should be integer.")
  end.

Definition write8 (offset value : pyval) : M unit :=
  match offset with
  | PyInt offset =>
    match value with
    | PyInt value =>
        if (value <? 0) || (value >? 0xff)
        then raise (ValueError "Value out of bounds.")
        else
          offset ← _adjust_offset offset;
          _validate_offset offset 1;;
          m ← get_mapping;
          c ← from_buffer 1 m offset;
          set_value 1 c value
    | _ => raise (TypeError "Invalid value type, should be integer.")
    end
  | _ => raise (TypeError "Invalid offset type, should be integer.")
  end.

(** [for i in range(len(data)): c_byte_array[i] = data[i]], from index [i] on. *)
Fixpoint write_loop (c_byte_array : cdata) (i : nat) (data : list byte) : M unit :=
  match data with
  | [] => mret tt
  | b :: data' => array_setitem c_byte_array i b;; write_loop c_byte_array (S i) data'
  end.

Definition is_bytes_bytearray_or_list (data : pyval) : bool :=
  match data with
  | PyBytes _ | PyByteArray _ | PyList _ => true
  | _ => false
  end.

Definition write (offset data : pyval) : M unit :=
  match offset with
  | PyInt offset =>
      if negb (is_bytes_bytearray_or_list data)
      then raise (TypeError "Invalid data type, expected bytes, bytearray, or list.")
      else
        offset ← _adjust_offset offset;
        _validate_offset offset (py_len data);;
        data ← bytearray data;
        n ← c_uint8_array (Z.of_nat (length data));
        m ← get_mapping;
        c_byte_array ← from_buffer n m offset;
        write_loop c_byte_array 0 data
  | _ => raise (TypeError "Invalid offset type, should be integer.")
  end.

Definition close : M unit :=
  m ← get_mapping;
  match m with
  | None => mret tt
  | Some r =>
      mmap_close r;;
      set_mapping None;;
      set_fd PyNone
  end.

Definition __del__ : M unit := close.
Definition __enter__ : M unit := mret tt.
Definition __exit__ : M unit := close.

Definition base : M Z := getattr _physaddr "_physaddr".
Definition size : M Z := getattr _size "_size".

(** [ctypes.cast(ctypes.pointer(c), ctypes.c_void_p)]: the address of [c].
    The result refers to the pointer and the pointer to [c], and [cast]
    leaves them in a reference cycle: [c], an export of the buffer of its
    [mmap] object, lives on after the method has returned, even when the
    caller drops the result at once, until the cycle collector runs. *)
Definition cast_pointer (c : cdata) : M cdata :=
  fun s => (Return c,
            {| self := self s;
               heap := alter (fun m => {| buf := buf m; closed := closed m;
                                          exports := S (exports m) |})
                             (b_obj c) (heap s) |}).

(** The pointer is the address of byte 0 of the mapping. *)
Definition pointer : M cdata :=
  m ← get_mapping;
  c ← from_buffer 1 m 0;
  cast_pointer c.

(** A pass of the cycle collector at a time when the caller holds no result
    of [pointer]: the objects left behind by [cast_pointer] are freed, and
    with them the exports. *)
Definition gc_collect : M unit :=
  fun s => (Return tt,
            {| self := self s;
               heap := (fun m => {| buf := buf m; closed := closed m; exports := 0 |})
                         <$> heap s |}).

(** *** The accessors by width, and sequences of calls *)

Inductive width := W8 | W16 | W32.

Definition bits (w : width) : Z :=
  match w with W8 => 8 | W16 => 16 | W32 => 32 end.

Definition nbytes (w : width) : nat :=
  match w with W8 => 1 | W16 => 2 | W32 => 4 end.

(** What [read8], [read16] and [read32] do once the offset has passed
    [_validate_offset], for a type of [n] bytes; and the same for the
    writes, for [read] and for [write]. *)
Definition load (n : nat) (offset : Z) : M Z :=
  m ← get_mapping;
  c ← from_buffer (Z.of_nat n) m offset;
  get_value n c.

Definition store_value (n : nat) (offset value : Z) : M unit :=
  m ← get_mapping;
  c ← from_buffer (Z.of_nat n) m offset;
  set_value n c value.

Definition load_bytes (offset length : Z) : M (list byte) :=
  n ← c_uint8_array length;
  m ← get_mapping;
  c_byte_array ← from_buffer n m offset;
  array_bytes n c_byte_array.

Definition store_bytes (offset : Z) (data : pyval) : M unit :=
  data ← bytearray data;
  n ← c_uint8_array (Z.of_nat (length data));
  m ← get_mapping;
  c_byte_array ← from_buffer n m offset;
  write_loop c_byte_array 0 data.

Definition readW (w : width) : pyval -> M Z :=
  match w with W8 => read8 | W16 => read16 | W32 => read32 end.

Definition writeW (w : width) : pyval -> pyval -> M unit :=
  match w with W8 => write8 | W16 => write16 | W32 => write32 end.

(** A call of a public method on the object, with its arguments, or a pass
    of the cycle collector between two calls. *)
Inductive call :=
| Read32 (offset : pyval)
| Read16 (offset : pyval)
| Read8 (offset : pyval)
| Read (offset : pyval) (length : Z)
| Write32 (offset value : pyval)
| Write16 (offset value : pyval)
| Write8 (offset value : pyval)
| Write (offset data : pyval)
| Close
| Enter
| Exit
| Base
| Size
| Pointer
| Collect.

(** The state a call leaves behind, whether it returns or raises. *)
Definition exec (c : call) (s : State) : State :=
  match c with
  | Read32 o => snd (read32 o s)
  | Read16 o => snd (read16 o s)
  | Read8 o => snd (read8 o s)
  | Read o n => snd (read o n s)
  | Write32 o v => snd (write32 o v s)
  | Write16 o v => snd (write16 o v s)
  | Write8 o v => snd (write8 o v s)
  | Write o d => snd (write o d s)
  | Close => snd (close s)
  | Enter => snd (__enter__ s)
  | Exit => snd (__exit__ s)
  | Base => snd (base s)
  | Size => snd (size s)
  | Pointer => snd (pointer s)
  | Collect => snd (gc_collect s)
  end.

Definition run (cs : list call) (s : State) : State :=
  foldl (fun s c => exec c s) s cs.

End Periphery.

(** ** Predicates on states *)

(** The region is open: [self.mapping] refers to an [mmap] object that is not
    closed and maps [_aligned_size] bytes. *)
Definition is_open (s : State) : bool :=
  match mapping (self s) with
  | Some r =>
      match heap s !! r with
      | Some m =>
          negb (closed m)
          && bool_decide (_aligned_size (self s) = Some (Z.of_nat (length (buf m))))
      | None => false
      end
  | None => false
  end.

(** An export of the mapping of the object is outstanding. *)
Definition has_export (s : State) : bool :=
  match mapping (self s) with
  | Some r =>
      match heap s !! r with
      | Some m => (0 <? exports m)%nat
      | None => false
      end
  | None => false
  end.

(** The [mmap] object at [r] has been released. *)
Definition released (r : loc) (s : State) : bool :=
  match heap s !! r with
  | Some m => closed m
  | None => true
  end.

(** The attributes fixed by [_open]. *)
Definition metadata (s : State) : option Z * option Z * option Z * option Z :=
  (_physaddr (self s), _size (self s), _aligned_physaddr (self s), _aligned_size (self s)).

(** [m] assigns no attribute of [self]. *)
Definition keeps_self {A} (m : M A) : Prop :=
  forall s, self (snd (m s)) = self s.

(** [m] changes nothing at all. *)
Definition pure {A} (m : M A) : Prop :=
  forall s, snd (m s) = s.

(** [m] never raises [e]. *)
Definition cannot_raise {A} (e : exn) (m : M A) : Prop :=
  forall s, fst (m s) <> Raise e.

(** The two errors only the methods of the class raise themselves. *)
Definition own_error (e : exn) : Prop :=
  e = OutOfBoundsError \/ e = RangeError.

(** An object on which no method has run yet, in a store [h]. *)
Definition fresh_object (h : gmap loc mmap_t) : State :=
  {| self := {| mapping := None; _physaddr := None; _size := None;
                _aligned_physaddr := None; _aligned_size := None; _fd := None |};
     heap := h |}.

(** A platform on which [/dev/mem] can be opened, mapped and closed. *)
Definition platform (pagesize : Z) (e : endianness) (mem : Z -> byte) : Env :=
  {| SC_PAGESIZE := pagesize; byteorder := e; dev_mem_open := inr 3;
     dev_mem_mmap := None; dev_mem_close := None; physmem := mem |}.

(** A little-endian platform with pages of 4096 bytes, and on it the region
    [MMIO(0x1004, 8)]: the mapping starts at 0x1000 and has 12 bytes, and
    offsets are shifted by 4. *)
Definition example_env : Env := platform 0x1000 Little (fun _ => Byte.x00).

Definition example_region : State :=
  snd (__init__ example_env (PyInt 0x1004) (PyInt 8) (fresh_object ∅)).

(** The Python list of the integers that the bytes [b] stand for. *)
Definition int_list (b : list byte) : pyval :=
  PyList (map (fun x => PyInt (Z_of_byte x)) b).

(** [m] returns, or else raises and leaves the state as it found it. *)
Definition fails_cleanly {A} (m : M A) : Prop :=
  forall s, (exists x s', m s = (Return x, s')) \/ (exists e, m s = (Raise e, s)).

(** [m] raises, and leaves the state as it found it. *)
Definition refused {A} (m : M A) (s : State) : Prop :=
  exists e, m s = (Raise e, s).

(** The calls that may release the mapping. *)
Definition is_release (c : call) : bool :=
  match c with
  | Close | Exit => true
  | _ => false
  end.


(** The outcome [x] with [f] applied to the value returned, if any. *)
Definition map_result {A B} (f : A -> B) (x : result A * State) : result B * State :=
  (match fst x with
   | Return v => Return (f v)
   | Raise e => Raise e
   end, snd x).

(** * Properties *)

(** ** Bytes *)

Lemma Z_of_byte_of_Z z : Z_of_byte (byte_of_Z z) = z mod 256.
Proof.
  unfold Z_of_byte, byte_of_Z.
  assert (Hr : 0 <= z mod 256 < 256) by (apply Z.mod_pos_bound; lia).
  destruct (Byte.of_N (Z.to_N (z mod 256))) as [b|] eqn:E.
  - apply Byte.to_of_N in E. rewrite E. lia.
  - apply Byte.of_N_None_iff in E. lia.
Qed.

Lemma length_le_bytes n v : length (le_bytes n v) = n.
Proof. revert v. induction n as [|n IH]; intros v; simpl; [done|]. by rewrite IH. Qed.

Lemma le_value_le_bytes n v : le_value (le_bytes n v) = v mod 256 ^ Z.of_nat n.
Proof.
  revert v. induction n as [|n IH]; intros v.
  - simpl. by rewrite Z.mod_1_r.
  - cbn [le_bytes le_value]. rewrite IH, Z_of_byte_of_Z.
    rewrite Nat2Z.inj_succ, Z.pow_succ_r by lia.
    rewrite Z.rem_mul_r by lia. lia.
Qed.

Lemma decode_encode e n v : decode e (encode e n v) = v mod 256 ^ Z.of_nat n.
Proof. destruct e; simpl; [|rewrite rev_involutive]; apply le_value_le_bytes. Qed.

Lemma length_encode e n v : length (encode e n v) = n.
Proof. destruct e; simpl; [|rewrite length_rev]; apply length_le_bytes. Qed.

Lemma length_store off bs data :
  (off + length bs <= length data)%nat -> length (store off bs data) = length data.
Proof. intros H. unfold store. rewrite !length_app, length_take, length_drop. lia. Qed.

Lemma slice_store off bs data :
  (off + length bs <= length data)%nat -> slice off (length bs) (store off bs data) = bs.
Proof.
  intros H. unfold slice, store.
  rewrite drop_app_length' by (rewrite length_take; lia).
  by rewrite take_app_length.
Qed.

(** ** What a computation leaves untouched *)

Lemma pure_keeps_self {A} (m : M A) : pure m -> keeps_self m.
Proof. intros H s. by rewrite H. Qed.

Lemma keeps_self_bind {A B} (m : M A) (k : A -> M B) :
  keeps_self m -> (forall a, keeps_self (k a)) -> keeps_self (m ≫= k).
Proof.
  intros Hm Hk s. unfold mbind, M_bind, bind.
  specialize (Hm s). destruct (m s) as [[a|e] s']; simpl in *; [|done].
  by rewrite Hk.
Qed.

Lemma pure_bind {A B} (m : M A) (k : A -> M B) :
  pure m -> (forall a, pure (k a)) -> pure (m ≫= k).
Proof.
  intros Hm Hk s. unfold mbind, M_bind, bind.
  specialize (Hm s). destruct (m s) as [[a|e] s']; simpl in *; [|done].
  by rewrite Hk.
Qed.

Lemma pure_mret {A} (a : A) : pure (mret a : M A).
Proof. done. Qed.

Lemma pure_raise {A} e : pure (raise e : M A).
Proof. done. Qed.

Lemma pure_getattr {A} (f : MMIO -> option A) name : pure (getattr f name).
Proof. intros s. unfold getattr. by destruct (f (self s)). Qed.

Lemma pure_get_mapping : pure get_mapping.
Proof. done. Qed.

Lemma pure_from_buffer sz m off : pure (from_buffer sz m off).
Proof. intros s. unfold from_buffer. by repeat case_match. Qed.

Lemma pure_get_value env n c : pure (get_value env n c).
Proof. done. Qed.

Lemma pure_array_bytes n c : pure (array_bytes n c).
Proof. done. Qed.

Lemma pure_c_uint8_array n : pure (c_uint8_array n).
Proof. intros s. unfold c_uint8_array. by case_match. Qed.

Lemma pure_byte_of_item v : pure (byte_of_item v).
Proof. intros s. unfold byte_of_item. by repeat case_match. Qed.

Lemma pure_bytes_of_items l : pure (bytes_of_items l).
Proof.
  induction l as [|v l IH]; [done|]. cbn [bytes_of_items].
  apply pure_bind; [apply pure_byte_of_item|]. intros b.
  apply pure_bind; [apply IH|]. intros bs. apply pure_mret.
Qed.

Lemma pure_bytearray data : pure (bytearray data).
Proof.
  destruct data; simpl; try apply pure_raise; try apply pure_mret.
  apply pure_bytes_of_items.
Qed.

Lemma keeps_self_poke r off bs : keeps_self (poke r off bs).
Proof. done. Qed.

Lemma keeps_self_write_loop c i data : keeps_self (write_loop c i data).
Proof.
  revert i. induction data as [|b data IH]; intros i; [done|].
  cbn [write_loop]. apply keeps_self_bind; [apply keeps_self_poke|]. intros _. apply IH.
Qed.

Create HintDb frame.
#[export] Hint Resolve pure_mret pure_raise pure_getattr pure_get_mapping pure_from_buffer
  pure_get_value pure_array_bytes pure_c_uint8_array pure_bytearray : frame.
#[export] Hint Resolve keeps_self_poke keeps_self_write_loop : frame.

(** Goals [pure m] and [keeps_self m] for a method body: along the binds,
    by cases on the tests. *)
Ltac frame :=
  repeat first
    [ progress intros
    | apply pure_bind
    | apply keeps_self_bind
    | solve [auto with frame]
    | solve [apply pure_keeps_self; auto with frame]
    | case_match ].

Lemma pure_adjust_offset o : pure (_adjust_offset o).
Proof. unfold _adjust_offset. frame. Qed.

Lemma pure_validate_offset o n : pure (_validate_offset o n).
Proof. unfold _validate_offset. frame. Qed.

#[export] Hint Resolve pure_adjust_offset pure_validate_offset : frame.

Lemma pure_read32 env o : pure (read32 env o).
Proof. unfold read32. frame. Qed.

Lemma pure_read16 env o : pure (read16 env o).
Proof. unfold read16. frame. Qed.

Lemma pure_read8 env o : pure (read8 env o).
Proof. unfold read8. frame. Qed.

Lemma pure_read o n : pure (read o n).
Proof. unfold read. frame. Qed.

Lemma keeps_self_write32 env o v : keeps_self (write32 env o v).
Proof. unfold write32, set_value. frame. Qed.

Lemma keeps_self_write16 env o v : keeps_self (write16 env o v).
Proof. unfold write16, set_value. frame. Qed.

Lemma keeps_self_write8 env o v : keeps_self (write8 env o v).
Proof. unfold write8, set_value. frame. Qed.

Lemma keeps_self_write o d : keeps_self (write o d).
Proof. unfold write. frame. Qed.

Lemma pure_base : pure base.
Proof. unfold base. frame. Qed.

Lemma pure_size : pure size.
Proof. unfold size. frame. Qed.

Lemma keeps_self_cast_pointer c : keeps_self (cast_pointer c).
Proof. done. Qed.

#[export] Hint Resolve keeps_self_cast_pointer : frame.

Lemma keeps_self_pointer : keeps_self pointer.
Proof. unfold pointer. frame. Qed.

Lemma keeps_self_gc_collect : keeps_self gc_collect.
Proof. done. Qed.

(** ** Construction *)

Ltac munfold :=
  unfold mbind, M_bind, bind, mret, M_ret, ret, raise, getattr, get_mapping,
    update_self in *.

Section Construction.

Variable env : Env.
Variables (p sz : Z) (s0 : State).

(** [_physaddr] and [_size] are assigned before anything can fail. *)
Lemma init_base_size :
  _physaddr (self (snd (__init__ env (PyInt p) (PyInt sz) s0))) = Some p
  /\ _size (self (snd (__init__ env (PyInt p) (PyInt sz) s0))) = Some sz.
Proof.
  unfold __init__, _open, set_mapping, set_physaddr, set_size, set_aligned_physaddr,
    set_aligned_size, os_sysconf_pagesize, py_mod, try_OSError, os_open_dev_mem,
    mmap_mmap, os_close, alloc.
  munfold. simpl.
  repeat (case_match; simpl in *; simplify_eq; try done).
Qed.

(** With a page size other than 0 the four attributes are assigned, whatever
    happens to the mapping afterwards. *)
Lemma init_metadata :
  SC_PAGESIZE env <> 0 ->
  metadata (snd (__init__ env (PyInt p) (PyInt sz) s0))
  = (Some p, Some sz, Some (p - p mod SC_PAGESIZE env),
     Some (sz + (p - (p - p mod SC_PAGESIZE env)))).
Proof.
  intros Hps. apply Z.eqb_neq in Hps.
  unfold metadata, __init__, _open, set_mapping, set_physaddr, set_size, set_aligned_physaddr,
    set_aligned_size, os_sysconf_pagesize, py_mod, try_OSError, os_open_dev_mem,
    mmap_mmap, os_close, alloc.
  munfold. simpl. rewrite Hps. simpl.
  repeat (case_match; simpl in *; simplify_eq; try done).
Qed.

(** When the operating system grants every request, construction returns,
    and the object refers to a new mapping of [_aligned_size] bytes. *)
Lemma init_returns fd :
  dev_mem_open env = inr fd -> dev_mem_mmap env = None -> dev_mem_close env = None ->
  SC_PAGESIZE env <> 0 ->
  0 <= sz + (p - (p - p mod SC_PAGESIZE env)) ->
  0 <= p - p mod SC_PAGESIZE env ->
  __init__ env (PyInt p) (PyInt sz) s0
  = (Return tt,
     {| self := {| mapping := Some (fresh (dom (heap s0)));
                   _physaddr := Some p; _size := Some sz;
                   _aligned_physaddr := Some (p - p mod SC_PAGESIZE env);
                   _aligned_size := Some (sz + (p - (p - p mod SC_PAGESIZE env)));
                   _fd := _fd (self s0) |};
        heap := <[fresh (dom (heap s0)) :=
                    {| buf := map (fun i => physmem env (p - p mod SC_PAGESIZE env + Z.of_nat i))
                                  (seq 0 (Z.to_nat (sz + (p - (p - p mod SC_PAGESIZE env)))));
                       closed := false; exports := 0 |}]> (heap s0) |}).
Proof.
  intros Ho Hm Hc Hps Hsz Hoff. apply Z.eqb_neq in Hps.
  apply Z.ltb_ge in Hsz, Hoff.
  unfold __init__, _open, set_mapping, set_physaddr, set_size, set_aligned_physaddr,
    set_aligned_size, os_sysconf_pagesize, py_mod, try_OSError, os_open_dev_mem,
    mmap_mmap, os_close, alloc.
  munfold. simpl. rewrite Hps. simpl. rewrite Ho. simpl.
  rewrite Hsz, Hoff, Hm. simpl. rewrite Hc. done.
Qed.

Lemma init_is_open fd :
  dev_mem_open env = inr fd -> dev_mem_mmap env = None -> dev_mem_close env = None ->
  SC_PAGESIZE env <> 0 ->
  0 <= sz + (p - (p - p mod SC_PAGESIZE env)) ->
  0 <= p - p mod SC_PAGESIZE env ->
  is_open (snd (__init__ env (PyInt p) (PyInt sz) s0)) = true.
Proof.
  intros Ho Hm Hc Hps Hsz Hoff.
  rewrite (init_returns fd) by done. unfold is_open. simpl.
  rewrite lookup_insert_eq. simpl.
  rewrite length_map, length_seq, Z2Nat.id by done.
  by apply bool_decide_eq_true.
Qed.

End Construction.

(** ** Sequences of calls *)

Lemma keeps_self_metadata {A} (m : M A) s : keeps_self m -> metadata (snd (m s)) = metadata s.
Proof. intros H. unfold metadata. by rewrite H. Qed.

(** The cases of [close()]: no mapping; a mapping with an export
    outstanding; a mapping without. *)
Ltac close_cases s :=
  unfold close, mmap_close, set_mapping, set_fd; munfold; simpl;
  let r := fresh "r" in
  let m := fresh "m" in
  let Hr := fresh "Hr" in
  let Hm := fresh "Hm" in
  let Hx := fresh "Hx" in
  destruct (mapping (self s)) as [r|] eqn:Hr; simpl;
  [ destruct (heap s !! r) as [m|] eqn:Hm; simpl;
    [ destruct (0 <? exports m)%nat eqn:Hx; simpl | ]
  | ].

Lemma close_metadata s : metadata (snd (close s)) = metadata s.
Proof. close_cases s; done. Qed.

Lemma exec_metadata env c s : metadata (exec env c s) = metadata s.
Proof.
  destruct c; simpl; try done;
    try (apply keeps_self_metadata;
         first [ apply keeps_self_write32 | apply keeps_self_write16
               | apply keeps_self_write8 | apply keeps_self_write
               | apply keeps_self_pointer | apply keeps_self_gc_collect
               | apply pure_keeps_self;
                 first [ apply pure_read32 | apply pure_read16 | apply pure_read8
                       | apply pure_read | apply pure_base | apply pure_size
                       | apply pure_mret ] ]);
    apply close_metadata.
Qed.

Lemma run_metadata env cs s : metadata (run env cs s) = metadata s.
Proof.
  revert s. induction cs as [|c cs IH]; intros s; [done|].
  simpl. rewrite IH. apply exec_metadata.
Qed.

(** ** Offsets and accesses *)

Section Access.

Variable env : Env.
Variables (s : State) (p a asz : Z).
Hypothesis Hp : _physaddr (self s) = Some p.
Hypothesis Ha : _aligned_physaddr (self s) = Some a.
Hypothesis Hasz : _aligned_size (self s) = Some asz.

Lemma adjust_offset_eval o : _adjust_offset o s = (Return (o + (p - a)), s).
Proof using Hp Ha. unfold _adjust_offset. munfold. by rewrite Hp, Ha. Qed.

Lemma validate_offset_eval off n :
  _validate_offset off n s
  = (if off + n >? asz then Raise OutOfBoundsError else Return tt, s).
Proof using Hasz. unfold _validate_offset. munfold. rewrite Hasz. by case_match. Qed.

(** An accessor on an integer offset: the bounds error, or else the access
    at the adjusted offset. *)
Lemma checked_access {A} (o n : Z) (access : Z -> M A) :
  (off ← _adjust_offset o; _validate_offset off n;; access off) s
  = if o + (p - a) + n >? asz then (Raise OutOfBoundsError, s)
    else access (o + (p - a)) s.
Proof using Hp Ha Hasz.
  unfold mbind, M_bind, bind. rewrite adjust_offset_eval, validate_offset_eval.
  by destruct (_ >? _).
Qed.

Lemma readW_eval w o :
  readW env w (PyInt o) s
  = if o + (p - a) + Z.of_nat (nbytes w) >? asz then (Raise OutOfBoundsError, s)
    else load env (nbytes w) (o + (p - a)) s.
Proof using Hp Ha Hasz.
  destruct w;
    [ exact (checked_access o 1 (load env 1))
    | exact (checked_access o 2 (load env 2))
    | exact (checked_access o 4 (load env 4)) ].
Qed.

Lemma read_eval o n :
  read (PyInt o) n s
  = if o + (p - a) + n >? asz then (Raise OutOfBoundsError, s)
    else load_bytes (o + (p - a)) n s.
Proof using Hp Ha Hasz. exact (checked_access o n (fun off => load_bytes off n)). Qed.

Lemma writeW_eval w o v :
  0 <= v <= 2 ^ bits w - 1 ->
  writeW env w (PyInt o) (PyInt v) s
  = if o + (p - a) + Z.of_nat (nbytes w) >? asz then (Raise OutOfBoundsError, s)
    else store_value env (nbytes w) (o + (p - a)) v s.
Proof using Hp Ha Hasz.
  intros Hv.
  destruct w; simpl in Hv; unfold writeW, write8, write16, write32;
    (replace (v <? 0) with false by lia); (replace (v >? _) with false by lia);
    [ exact (checked_access o 1 (fun off => store_value env 1 off v))
    | exact (checked_access o 2 (fun off => store_value env 2 off v))
    | exact (checked_access o 4 (fun off => store_value env 4 off v)) ].
Qed.

Lemma write_eval o data :
  is_bytes_bytearray_or_list data = true ->
  write (PyInt o) data s
  = if o + (p - a) + py_len data >? asz then (Raise OutOfBoundsError, s)
    else store_bytes (o + (p - a)) data s.
Proof using Hp Ha Hasz.
  intros Hd. unfold write. rewrite Hd. simpl.
  exact (checked_access o (py_len data) (fun off => store_bytes off data)).
Qed.

End Access.

Lemma writeW_range env w o v s :
  v < 0 \/ v > 2 ^ bits w - 1 ->
  writeW env w (PyInt o) (PyInt v) s = (Raise RangeError, s).
Proof.
  intros Hv.
  destruct w; simpl in Hv; unfold writeW, write8, write16, write32;
    (replace ((v <? 0) || (v >? _)) with true by lia); done.
Qed.

(** ** Errors the library calls cannot raise *)

Lemma cannot_raise_bind {A B} e (m : M A) (k : A -> M B) :
  cannot_raise e m -> (forall x, cannot_raise e (k x)) -> cannot_raise e (m ≫= k).
Proof.
  intros Hm Hk s. unfold mbind, M_bind, bind.
  specialize (Hm s). destruct (m s) as [[x|e'] s']; simpl in *; [apply Hk|].
  congruence.
Qed.

Lemma cannot_raise_mret {A} e (x : A) : cannot_raise e (mret x : M A).
Proof. done. Qed.

Lemma cannot_raise_get_mapping e : cannot_raise e get_mapping.
Proof. done. Qed.

Lemma cannot_raise_poke e r off bs : cannot_raise e (poke r off bs).
Proof. done. Qed.

Lemma cannot_raise_get_value env e n c : cannot_raise e (get_value env n c).
Proof. done. Qed.

Lemma cannot_raise_array_bytes e n c : cannot_raise e (array_bytes n c).
Proof. done. Qed.

Lemma cannot_raise_write_loop e c i data : cannot_raise e (write_loop c i data).
Proof.
  revert i. induction data as [|b data IH]; intros i; [done|].
  cbn [write_loop]. apply cannot_raise_bind; [apply cannot_raise_poke|]. intros _. apply IH.
Qed.

Ltac own_error_cases H :=
  destruct H as [-> | ->]; intros ?; unfold OutOfBoundsError, RangeError.

Lemma cannot_raise_from_buffer e sz m off : own_error e -> cannot_raise e (from_buffer sz m off).
Proof. intros H. own_error_cases H; unfold from_buffer; by repeat case_match. Qed.

Lemma cannot_raise_c_uint8_array e n : own_error e -> cannot_raise e (c_uint8_array n).
Proof. intros H. own_error_cases H; unfold c_uint8_array; by case_match. Qed.

Lemma cannot_raise_byte_of_item e v : own_error e -> cannot_raise e (byte_of_item v).
Proof. intros H. own_error_cases H; unfold byte_of_item; by repeat case_match. Qed.

Lemma cannot_raise_bytes_of_items e l : own_error e -> cannot_raise e (bytes_of_items l).
Proof.
  intros H. induction l as [|v l IH]; [done|]. cbn [bytes_of_items].
  apply cannot_raise_bind; [by apply cannot_raise_byte_of_item|]. intros b.
  apply cannot_raise_bind; [apply IH|]. intros bs. apply cannot_raise_mret.
Qed.

Lemma cannot_raise_bytearray e data : own_error e -> cannot_raise e (bytearray data).
Proof.
  intros H. destruct data; simpl; try (by apply cannot_raise_bytes_of_items);
    try apply cannot_raise_mret; by own_error_cases H.
Qed.

#[export] Hint Resolve cannot_raise_mret cannot_raise_get_mapping cannot_raise_poke
  cannot_raise_get_value cannot_raise_array_bytes cannot_raise_write_loop
  cannot_raise_from_buffer cannot_raise_c_uint8_array cannot_raise_bytearray : frame.

Ltac no_raise :=
  repeat first
    [ progress intros
    | apply cannot_raise_bind
    | solve [auto with frame] ].

Lemma cannot_raise_load env e n off : own_error e -> cannot_raise e (load env n off).
Proof. unfold load. no_raise. Qed.

Lemma cannot_raise_store_value env e n off v :
  own_error e -> cannot_raise e (store_value env n off v).
Proof. unfold store_value, set_value. no_raise. Qed.

Lemma cannot_raise_load_bytes e off n : own_error e -> cannot_raise e (load_bytes off n).
Proof. unfold load_bytes. no_raise. Qed.

Lemma cannot_raise_store_bytes e off data : own_error e -> cannot_raise e (store_bytes off data).
Proof. unfold store_bytes. no_raise. Qed.

(** ** Accesses to an open region *)

Lemma is_open_inv s :
  is_open s = true ->
  exists r m, mapping (self s) = Some r /\ heap s !! r = Some m /\ closed m = false
              /\ _aligned_size (self s) = Some (Z.of_nat (length (buf m))).
Proof.
  unfold is_open. intros H.
  destruct (mapping (self s)) as [r|]; [|done].
  destruct (heap s !! r) as [m|] eqn:Hm; [|done].
  apply andb_true_iff in H as [Hc Hl].
  apply negb_true_iff in Hc. apply bool_decide_eq_true in Hl. by exists r, m.
Qed.

Section OpenRegion.

Variable env : Env.
Variables (s : State) (r : loc) (m : mmap_t).
Hypothesis Hr : mapping (self s) = Some r.
Hypothesis Hm : heap s !! r = Some m.
Hypothesis Hlive : closed m = false.

Lemma from_buffer_open (n : nat) off :
  0 <= off -> off + Z.of_nat n <= Z.of_nat (length (buf m)) ->
  from_buffer (Z.of_nat n) (Some r) off s = (Return {| b_obj := r; b_off := Z.to_nat off |}, s).
Proof using Hm Hlive.
  intros H0 H1. unfold from_buffer. rewrite Hm, Hlive.
  replace (off <? 0) with false by lia.
  by replace (Z.of_nat (length (buf m)) - off <? Z.of_nat n) with false by lia.
Qed.

Lemma load_open n off :
  0 <= off -> off + Z.of_nat n <= Z.of_nat (length (buf m)) ->
  load env n off s = (Return (decode (byteorder env) (slice (Z.to_nat off) n (buf m))), s).
Proof using Hr Hm Hlive.
  intros H0 H1. unfold load. munfold. rewrite Hr, from_buffer_open by done.
  unfold get_value, contents. simpl. by rewrite Hm.
Qed.

Lemma store_value_open n off v :
  0 <= off -> off + Z.of_nat n <= Z.of_nat (length (buf m)) ->
  store_value env n off v s
  = (Return tt, snd (poke r (Z.to_nat off) (encode (byteorder env) n v) s)).
Proof using Hr Hm Hlive.
  intros H0 H1. unfold store_value. munfold. by rewrite Hr, from_buffer_open.
Qed.

Lemma poke_lookup off bs :
  heap (snd (poke r off bs s)) !! r
  = Some {| buf := store off bs (buf m); closed := false; exports := exports m |}.
Proof using Hm Hlive. simpl. by rewrite lookup_alter_eq, Hm, <- Hlive. Qed.

End OpenRegion.

(** A value stored in range is the value loaded from the same place. *)
Lemma load_store_value env s r m n off v :
  mapping (self s) = Some r -> heap s !! r = Some m -> closed m = false ->
  0 <= off -> off + Z.of_nat n <= Z.of_nat (length (buf m)) ->
  0 <= v < 256 ^ Z.of_nat n ->
  exists s', store_value env n off v s = (Return tt, s')
             /\ load env n off s' = (Return v, s')
             /\ self s' = self s /\ is_open s' = is_open s.
Proof.
  intros Hr Hm Hlive H0 H1 Hv.
  set (bs := encode (byteorder env) n v).
  assert (Hlen : length bs = n) by apply length_encode.
  assert (Hfit : (Z.to_nat off + length bs <= length (buf m))%nat) by lia.
  pose proof (poke_lookup s r m Hm Hlive (Z.to_nat off) bs) as Hm'.
  exists (snd (poke r (Z.to_nat off) bs s)).
  split; [by apply (store_value_open env s r m)|].
  split; [|split; [done|]].
  - rewrite (load_open env (snd (poke r (Z.to_nat off) bs s)) r _ Hr Hm' eq_refl); simpl.
    + rewrite <- Hlen at 1. rewrite slice_store by done. subst bs.
      by rewrite decode_encode, Z.mod_small.
    + done.
    + rewrite length_store by done. lia.
  - unfold is_open.
    change (self (snd (poke r (Z.to_nat off) bs s))) with (self s).
    rewrite Hr, Hm', Hm, Hlive. simpl. by rewrite length_store.
Qed.


Lemma example_region_metadata :
  metadata example_region = (Some 0x1004, Some 8, Some 0x1000, Some 12).
Proof. vm_compute. reflexivity. Qed.

Lemma example_region_open : is_open example_region = true.
Proof. vm_compute. reflexivity. Qed.

Lemma bits_nbytes w : bits w / 8 = Z.of_nat (nbytes w).
Proof. by destruct w. Qed.

Lemma pow_bits_nbytes w : 2 ^ bits w = 256 ^ Z.of_nat (nbytes w).
Proof. by destruct w. Qed.

(** * The claims *)

(** ** Round trip (C1) *)

(** C1, as amended: for every width, every open region, every value in
    [0, 2^w - 1] and every integer offset whose adjusted offset is not
    negative and, with w/8 bytes added, does not exceed the aligned size,
    [writeW(offset, v)] returns and [readW(offset)] then returns [v]. *)
Theorem writeW_then_readW env w s p a asz o v :
  is_open s = true ->
  _physaddr (self s) = Some p ->
  _aligned_physaddr (self s) = Some a ->
  _aligned_size (self s) = Some asz ->
  0 <= v <= 2 ^ bits w - 1 ->
  0 <= o + (p - a) ->
  o + (p - a) + bits w / 8 <= asz ->
  exists s', writeW env w (PyInt o) (PyInt v) s = (Return tt, s')
             /\ readW env w (PyInt o) s' = (Return v, s').
Proof.
  intros Hopen Hp Ha Hasz Hv H0 H1.
  destruct (is_open_inv s Hopen) as (r & m & Hr & Hm & Hlive & Hlen).
  rewrite Hasz in Hlen. injection Hlen as ->.
  rewrite bits_nbytes in H1. rewrite pow_bits_nbytes in Hv.
  destruct (load_store_value env s r m (nbytes w) (o + (p - a)) v)
    as (s' & Hst & Hld & Hself & _); [done..|lia|].
  exists s'. split.
  - rewrite (writeW_eval env s p a _ Hp Ha Hasz) by (rewrite pow_bits_nbytes; lia).
    by replace (_ >? _) with false by lia.
  - rewrite <- Hself in Hp, Ha, Hasz.
    rewrite (readW_eval env s' p a _ Hp Ha Hasz).
    by replace (_ >? _) with false by lia.
Qed.

Lemma writeW_then_readW_witness :
  is_open example_region = true
  /\ metadata example_region = (Some 0x1004, Some 8, Some 0x1000, Some 12)
  /\ 0 <= 0xDEADBEEF <= 2 ^ bits W32 - 1
  /\ 0 <= 4 + (0x1004 - 0x1000)
  /\ 4 + (0x1004 - 0x1000) + bits W32 / 8 <= 12
  /\ exists s', writeW example_env W32 (PyInt 4) (PyInt 0xDEADBEEF) example_region
                = (Return tt, s')
                /\ readW example_env W32 (PyInt 4) s' = (Return 0xDEADBEEF, s').
Proof.
  split; [vm_compute; reflexivity|].
  split; [vm_compute; reflexivity|].
  split; [vm_compute; split; discriminate|].
  split; [vm_compute; discriminate|].
  split; [vm_compute; discriminate|].
  apply (writeW_then_readW example_env W32 example_region 0x1004 0x1000 12 4 0xDEADBEEF);
    first [ reflexivity | vm_compute; reflexivity | vm_compute; split; discriminate
          | vm_compute; discriminate ].
Defined.

(** C1 as stated fails: on the region [MMIO(0x1004, 8)], offset -5 has
    adjusted offset -1, and -1 + 1 does not exceed the aligned size 12; yet
    [write8(-5, 7)] raises (ctypes refuses a negative offset), so there is no
    round trip. *)
Lemma write8_negative_adjusted_offset :
  is_open example_region = true
  /\ metadata example_region = (Some 0x1004, Some 8, Some 0x1000, Some 12)
  /\ 0 <= 7 <= 2 ^ bits W8 - 1
  /\ -5 + (0x1004 - 0x1000) + bits W8 / 8 <= 12
  /\ writeW example_env W8 (PyInt (-5)) (PyInt 7) example_region
     = (Raise (ValueError "offset cannot be negative"), example_region)
  /\ ~ exists s', writeW example_env W8 (PyInt (-5)) (PyInt 7) example_region = (Return tt, s')
                  /\ readW example_env W8 (PyInt (-5)) s' = (Return 7, s').
Proof.
  assert (Hw : writeW example_env W8 (PyInt (-5)) (PyInt 7) example_region
               = (Raise (ValueError "offset cannot be negative"), example_region))
    by (vm_compute; reflexivity).
  split; [vm_compute; reflexivity|].
  split; [vm_compute; reflexivity|].
  split; [vm_compute; split; discriminate|].
  split; [vm_compute; discriminate|].
  split; [exact Hw|].
  intros (s' & Hs' & _). rewrite Hw in Hs'. discriminate.
Qed.

(** ** The bounds check (C2, C9) *)

(** A checked access raises the bounds error exactly when the check does. *)
Lemma checked_access_out_of_bounds {A} (access : M A) s (bound asz : Z) :
  cannot_raise OutOfBoundsError access ->
  fst (if bound >? asz then (Raise OutOfBoundsError, s) else access s)
  = Raise OutOfBoundsError
  <-> bound > asz.
Proof.
  intros Hn. destruct (bound >? asz) eqn:E; simpl.
  - split; [lia|done].
  - split; [by intros ?%Hn | lia].
Qed.

Lemma own_error_bounds : own_error OutOfBoundsError.
Proof. by left. Qed.

Lemma own_error_range : own_error RangeError.
Proof. by right. Qed.

(** C2, as amended: on a constructed region and for every integer offset,
    [read8/16/32] and [read] raise the bounds error exactly when the adjusted
    offset plus the number of bytes accessed exceeds the aligned size; so do
    [write8/16/32] when the value lies in [0, 2^w - 1], and [write] when
    [data] is a bytes, bytearray or list object. *)
Theorem out_of_bounds_iff env s p a asz o :
  _physaddr (self s) = Some p ->
  _aligned_physaddr (self s) = Some a ->
  _aligned_size (self s) = Some asz ->
  (forall w,
     fst (readW env w (PyInt o) s) = Raise OutOfBoundsError
     <-> o + (p - a) + bits w / 8 > asz)
  /\ (forall n,
        fst (read (PyInt o) n s) = Raise OutOfBoundsError
        <-> o + (p - a) + n > asz)
  /\ (forall w v,
        0 <= v <= 2 ^ bits w - 1 ->
        fst (writeW env w (PyInt o) (PyInt v) s) = Raise OutOfBoundsError
        <-> o + (p - a) + bits w / 8 > asz)
  /\ (forall data,
        is_bytes_bytearray_or_list data = true ->
        fst (write (PyInt o) data s) = Raise OutOfBoundsError
        <-> o + (p - a) + py_len data > asz).
Proof.
  intros Hp Ha Hasz. repeat split.
  1,2: rewrite (readW_eval env s p a asz Hp Ha Hasz), bits_nbytes;
       apply checked_access_out_of_bounds, cannot_raise_load, own_error_bounds.
  1,2: rewrite (read_eval s p a asz Hp Ha Hasz);
       apply checked_access_out_of_bounds, cannot_raise_load_bytes, own_error_bounds.
  1,2: rewrite (writeW_eval env s p a asz Hp Ha Hasz) by done; rewrite bits_nbytes;
       apply checked_access_out_of_bounds, cannot_raise_store_value, own_error_bounds.
  1,2: rewrite (write_eval s p a asz Hp Ha Hasz) by done;
       apply checked_access_out_of_bounds, cannot_raise_store_bytes, own_error_bounds.
Qed.

Lemma out_of_bounds_iff_witness :
  _physaddr (self example_region) = Some 0x1004
  /\ _aligned_physaddr (self example_region) = Some 0x1000
  /\ _aligned_size (self example_region) = Some 12
  /\ (fst (readW example_env W32 (PyInt 8) example_region) = Raise OutOfBoundsError
      <-> 8 + (0x1004 - 0x1000) + bits W32 / 8 > 12)
  /\ (fst (read (PyInt 8) 5 example_region) = Raise OutOfBoundsError
      <-> 8 + (0x1004 - 0x1000) + 5 > 12).
Proof.
  assert (Hp : _physaddr (self example_region) = Some 0x1004) by reflexivity.
  assert (Ha : _aligned_physaddr (self example_region) = Some 0x1000) by reflexivity.
  assert (Hasz : _aligned_size (self example_region) = Some 12) by reflexivity.
  pose proof (out_of_bounds_iff example_env example_region 0x1004 0x1000 12 8 Hp Ha Hasz)
    as (Hr & Hb & _).
  split; [exact Hp|]. split; [exact Ha|]. split; [exact Hasz|].
  split; [apply Hr | apply Hb].
Defined.

(** C2 as stated fails for the writes: on the region [MMIO(0x1004, 8)] the
    adjusted offset of 100 lies beyond the aligned size, yet [write8(100, 256)]
    raises the range error, since the value is tested first. *)
Lemma write8_range_error_before_bounds :
  metadata example_region = (Some 0x1004, Some 8, Some 0x1000, Some 12)
  /\ 100 + (0x1004 - 0x1000) + bits W8 / 8 > 12
  /\ writeW example_env W8 (PyInt 100) (PyInt 256) example_region
     = (Raise RangeError, example_region)
  /\ fst (writeW example_env W8 (PyInt 100) (PyInt 256) example_region)
     <> Raise OutOfBoundsError.
Proof.
  split; [vm_compute; reflexivity|].
  split; [vm_compute; reflexivity|].
  split; [vm_compute; reflexivity|].
  vm_compute. discriminate.
Qed.



(** ** The range check (C5) *)

Lemma cannot_raise_getattr {A} e (f : MMIO -> option A) name :
  own_error e -> cannot_raise e (getattr f name).
Proof. intros H. own_error_cases H; unfold getattr; by case_match. Qed.

Lemma cannot_raise_adjust_offset e o : own_error e -> cannot_raise e (_adjust_offset o).
Proof.
  intros H. unfold _adjust_offset.
  repeat (apply cannot_raise_bind; [by apply cannot_raise_getattr|]; intros ?).
  apply cannot_raise_mret.
Qed.

Lemma validate_offset_not_range off n : cannot_raise RangeError (_validate_offset off n).
Proof.
  unfold _validate_offset.
  apply cannot_raise_bind; [apply cannot_raise_getattr, own_error_range|]. intros asz s.
  by case_match.
Qed.

(** Past the test of the value, a write cannot raise the range error. *)
Lemma checked_store_not_range env n o v :
  cannot_raise RangeError
    (off ← _adjust_offset o; _validate_offset off (Z.of_nat n);; store_value env n off v).
Proof.
  apply cannot_raise_bind; [apply cannot_raise_adjust_offset, own_error_range|]. intros off.
  apply cannot_raise_bind; [apply validate_offset_not_range|]. intros _.
  apply cannot_raise_store_value, own_error_range.
Qed.

Lemma writeW_in_range env w o v s :
  0 <= v <= 2 ^ bits w - 1 ->
  fst (writeW env w (PyInt o) (PyInt v) s) <> Raise RangeError.
Proof.
  intros Hv.
  destruct w; simpl in Hv; unfold writeW, write8, write16, write32;
    (replace (v <? 0) with false by lia); (replace (v >? _) with false by lia);
    [ exact (checked_store_not_range env 1 o v s)
    | exact (checked_store_not_range env 2 o v s)
    | exact (checked_store_not_range env 4 o v s) ].
Qed.

(** C5: for every width, integer offset and integer value, [writeW] raises the
    range error exactly when the value is negative or above [2^w - 1], as it
    does for the value [2^w]; and it then leaves the whole state, the mapped
    bytes included, as it was. *)
Theorem range_error_iff env w o v s :
  (fst (writeW env w (PyInt o) (PyInt v) s) = Raise RangeError
   <-> v < 0 \/ v > 2 ^ bits w - 1)
  /\ (writeW env w (PyInt o) (PyInt v) s = (Raise RangeError, s)
      <-> v < 0 \/ v > 2 ^ bits w - 1)
  /\ writeW env w (PyInt o) (PyInt (2 ^ bits w)) s = (Raise RangeError, s).
Proof.
  assert (Hiff : fst (writeW env w (PyInt o) (PyInt v) s) = Raise RangeError
                 <-> v < 0 \/ v > 2 ^ bits w - 1).
  { split.
    - intros H. destruct (decide (0 <= v <= 2 ^ bits w - 1)) as [Hv|Hv]; [|lia].
      by apply (writeW_in_range env w o v s) in Hv.
    - intros Hv. by rewrite writeW_range. }
  split; [exact Hiff|]. split.
  - split; [|apply writeW_range].
    intros H. apply Hiff. by rewrite H.
  - apply writeW_range. right. lia.
Qed.

(** ** Construction (C3, C4, C7) *)

(** C3: for a non-negative physical base and a positive page size,
    construction sets the aligned base to
    [physaddr - physaddr mod pagesize], a multiple of the page size that is
    at most the physical base. *)
Theorem aligned_physaddr_spec env p sz s0 :
  0 <= p ->
  0 < SC_PAGESIZE env ->
  let s := snd (__init__ env (PyInt p) (PyInt sz) s0) in
  _aligned_physaddr (self s) = Some (p - p mod SC_PAGESIZE env)
  /\ (p - p mod SC_PAGESIZE env) mod SC_PAGESIZE env = 0
  /\ p - p mod SC_PAGESIZE env <= p.
Proof.
  intros Hp Hps s.
  pose proof (init_metadata env p sz s0) as Hmeta.
  unfold metadata in Hmeta. fold s in Hmeta.
  split; [|split].
  - assert (Hne : SC_PAGESIZE env <> 0) by lia. specialize (Hmeta Hne). congruence.
  - rewrite <- Zminus_mod_idemp_l, Z.sub_diag. apply Z.mod_0_l. lia.
  - pose proof (Z.mod_pos_bound p (SC_PAGESIZE env) Hps). lia.
Qed.

Lemma aligned_physaddr_spec_witness :
  0 <= 0x1004
  /\ 0 < SC_PAGESIZE example_env
  /\ _aligned_physaddr (self example_region) = Some (0x1004 - 0x1004 mod SC_PAGESIZE example_env)
  /\ (0x1004 - 0x1004 mod SC_PAGESIZE example_env) mod SC_PAGESIZE example_env = 0
  /\ 0x1004 - 0x1004 mod SC_PAGESIZE example_env <= 0x1004.
Proof.
  assert (H0 : 0 <= 0x1004) by (vm_compute; discriminate).
  assert (H1 : 0 < SC_PAGESIZE example_env) by reflexivity.
  split; [exact H0|]. split; [exact H1|].
  exact (aligned_physaddr_spec example_env 0x1004 8 (fresh_object ∅) H0 H1).
Defined.

(** C4: for a non-negative physical base and size and a positive page size,
    after construction and after any sequence of calls on the object, the
    aligned size is the requested size plus the offset adjustment
    [physaddr - aligned_physaddr], hence at least the requested size; the
    adjustment, which is what [_adjust_offset] adds, lies in
    [0, pagesize). *)
Theorem metadata_invariant env p sz s0 cs :
  0 <= p ->
  0 <= sz ->
  0 < SC_PAGESIZE env ->
  let s := run env cs (snd (__init__ env (PyInt p) (PyInt sz) s0)) in
  exists a asz,
    metadata s = (Some p, Some sz, Some a, Some asz)
    /\ asz = sz + (p - a)
    /\ asz >= sz
    /\ 0 <= p - a < SC_PAGESIZE env
    /\ _adjust_offset 0 s = (Return (p - a), s).
Proof.
  intros Hp Hsz Hps s.
  assert (Hmeta : metadata s
                  = (Some p, Some sz, Some (p - p mod SC_PAGESIZE env),
                     Some (sz + (p - (p - p mod SC_PAGESIZE env))))).
  { subst s. rewrite run_metadata. apply init_metadata. lia. }
  pose proof (Z.mod_pos_bound p (SC_PAGESIZE env) Hps) as Hmod.
  eexists _, _. split; [exact Hmeta|].
  split; [done|]. split; [lia|]. split; [lia|].
  unfold metadata in Hmeta.
  rewrite (adjust_offset_eval s p (p - p mod SC_PAGESIZE env)) by congruence.
  do 2 f_equal.
Qed.

Lemma metadata_invariant_witness :
  0 <= 0x1004
  /\ 0 <= 8
  /\ 0 < SC_PAGESIZE example_env
  /\ exists a asz,
       metadata (run example_env [Write32 (PyInt 0) (PyInt 1); Read8 (PyInt 3); Close]
                     example_region)
       = (Some 0x1004, Some 8, Some a, Some asz)
       /\ asz = 8 + (0x1004 - a)
       /\ asz >= 8
       /\ 0 <= 0x1004 - a < SC_PAGESIZE example_env
       /\ _adjust_offset 0
            (run example_env [Write32 (PyInt 0) (PyInt 1); Read8 (PyInt 3); Close]
                 example_region)
          = (Return (0x1004 - a),
             run example_env [Write32 (PyInt 0) (PyInt 1); Read8 (PyInt 3); Close]
                 example_region).
Proof.
  assert (H0 : 0 <= 0x1004) by (vm_compute; discriminate).
  assert (H1 : 0 <= 8) by (vm_compute; discriminate).
  assert (H2 : 0 < SC_PAGESIZE example_env) by reflexivity.
  split; [exact H0|]. split; [exact H1|]. split; [exact H2|].
  exact (metadata_invariant example_env 0x1004 8 (fresh_object ∅)
           [Write32 (PyInt 0) (PyInt 1); Read8 (PyInt 3); Close] H0 H1 H2).
Defined.

(** C7 as stated fails: with physical base 0x1000, size 8 and pages of
    0x1000 bytes the base is already aligned, so construction yields the
    aligned base 0x1000, the adjustment 0 and the aligned size 8, not 0,
    0x1000 and 0x1008. *)
Lemma aligned_scenario_metadata :
  let s := snd (__init__ example_env (PyInt 0x1000) (PyInt 8) (fresh_object ∅)) in
  metadata s = (Some 0x1000, Some 8, Some 0x1000, Some 8)
  /\ _adjust_offset 0 s = (Return 0, s)
  /\ ~ (_aligned_physaddr (self s) = Some 0
        /\ _adjust_offset 0 s = (Return 0x1000, s)
        /\ _aligned_size (self s) = Some 0x1008).
Proof.
  split; [vm_compute; reflexivity|].
  split; [vm_compute; reflexivity|].
  intros (H & _). vm_compute in H. discriminate.
Qed.

(** C7, as amended: with physical base 0x1000, size 8 and pages of 0x1000
    bytes, construction yields the aligned base 0x1000, the adjustment 0 and
    the aligned size 8; then [write32(0, 0xDEADBEEF)] followed by [read32(0)]
    returns 0xDEADBEEF, [write32(4, 0x1234)] followed by [read32(4)] returns
    0x1234, and [read32(8)] raises the bounds error. *)
Theorem aligned_scenario e mem s0 :
  let env := platform 0x1000 e mem in
  exists s1 s2 s3,
    __init__ env (PyInt 0x1000) (PyInt 8) s0 = (Return tt, s1)
    /\ metadata s1 = (Some 0x1000, Some 8, Some 0x1000, Some 8)
    /\ _adjust_offset 0 s1 = (Return 0, s1)
    /\ write32 env (PyInt 0) (PyInt 0xDEADBEEF) s1 = (Return tt, s2)
    /\ read32 env (PyInt 0) s2 = (Return 0xDEADBEEF, s2)
    /\ write32 env (PyInt 4) (PyInt 0x1234) s2 = (Return tt, s3)
    /\ read32 env (PyInt 4) s3 = (Return 0x1234, s3)
    /\ read32 env (PyInt 8) s3 = (Raise OutOfBoundsError, s3).
Proof.
  intros env.
  remember (snd (__init__ env (PyInt 0x1000) (PyInt 8) s0)) as s1 eqn:Es1.
  assert (Hinit : __init__ env (PyInt 0x1000) (PyInt 8) s0 = (Return tt, s1)).
  { subst s1. by rewrite (init_returns env 0x1000 8 s0 3). }
  assert (Hmeta : metadata s1 = (Some 0x1000, Some 8, Some 0x1000, Some 8)).
  { subst s1. by rewrite init_metadata. }
  assert (Hopen : is_open s1 = true).
  { subst s1. by apply (init_is_open env 0x1000 8 s0 3). }
  unfold metadata in Hmeta. injection Hmeta as Hp Hsz Ha Hasz.
  destruct (is_open_inv s1 Hopen) as (r & m & Hr & Hm & Hlive & Hlen).
  rewrite Hasz in Hlen. injection Hlen as Hlen.
  destruct (load_store_value env s1 r m 4 0 0xDEADBEEF)
    as (s2 & Hst2 & Hld2 & Hself2 & Hopen2); [done| done| done| lia| simpl; lia| done |].
  rewrite Hopen in Hopen2.
  destruct (is_open_inv s2 Hopen2) as (r2 & m2 & Hr2 & Hm2 & Hlive2 & Hlen2).
  assert (Hp2 := Hp). assert (Ha2 := Ha). assert (Hasz2 := Hasz).
  rewrite <- Hself2 in Hp2, Ha2, Hasz2.
  rewrite Hasz2 in Hlen2. injection Hlen2 as Hlen2.
  destruct (load_store_value env s2 r2 m2 4 4 0x1234)
    as (s3 & Hst3 & Hld3 & Hself3 & Hopen3); [done| done| done| lia| simpl; lia| done |].
  assert (Hp3 := Hp2). assert (Ha3 := Ha2). assert (Hasz3 := Hasz2).
  rewrite <- Hself3 in Hp3, Ha3, Hasz3.
  exists s1, s2, s3.
  split; [exact Hinit|].
  split; [unfold metadata; by rewrite Hp, Hsz, Ha, Hasz|].
  split; [by rewrite (adjust_offset_eval s1 0x1000 0x1000)|].
  change (write32 env) with (writeW env W32).
  change (read32 env) with (readW env W32).
  split.
  { rewrite (writeW_eval env s1 0x1000 0x1000 8 Hp Ha Hasz) by (simpl; lia). exact Hst2. }
  split.
  { rewrite (readW_eval env s2 0x1000 0x1000 8 Hp2 Ha2 Hasz2). exact Hld2. }
  split.
  { rewrite (writeW_eval env s2 0x1000 0x1000 8 Hp2 Ha2 Hasz2) by (simpl; lia). exact Hst3. }
  split.
  { rewrite (readW_eval env s3 0x1000 0x1000 8 Hp3 Ha3 Hasz3). exact Hld3. }
  by rewrite (readW_eval env s3 0x1000 0x1000 8 Hp3 Ha3 Hasz3).
Qed.

(** ** Release (C6, C10) and the frame of the accessors (C8) *)




(** A [close()] that returns leaves no mapping; one that raises leaves
    everything as it was. *)
Lemma close_outcome s :
  match fst (close s) with
  | Return _ => mapping (self (snd (close s))) = None
  | Raise _ => snd (close s) = s
  end.
Proof. close_cases s; done. Qed.

Lemma close_returned_mapping s :
  fst (close s) = Return tt -> mapping (self (snd (close s))) = None.
Proof. intros H. pose proof (close_outcome s) as Ho. by rewrite H in Ho. Qed.

(** After a pass of the cycle collector no export is outstanding, and
    [close()] returns. *)
Lemma gc_collect_no_export s : has_export (snd (gc_collect s)) = false.
Proof.
  unfold has_export. simpl. destruct (mapping (self s)) as [r|]; [|done].
  rewrite lookup_fmap. by destruct (heap s !! r).
Qed.



Lemma run_base_size env p sz s0 cs :
  let s := run env cs (snd (__init__ env (PyInt p) (PyInt sz) s0)) in
  _physaddr (self s) = Some p /\ _size (self s) = Some sz.
Proof.
  intros s.
  pose proof (run_metadata env cs (snd (__init__ env (PyInt p) (PyInt sz) s0))) as Hrun.
  fold s in Hrun. unfold metadata in Hrun.
  destruct (init_base_size env p sz s0) as [Hp Hsz].
  split; congruence.
Qed.

Lemma base_eval s p : _physaddr (self s) = Some p -> base s = (Return p, s).
Proof. intros H. unfold base, getattr. by rewrite H. Qed.

Lemma size_eval s sz : _size (self s) = Some sz -> size s = (Return sz, s).
Proof. intros H. unfold size, getattr. by rewrite H. Qed.

(** C8: the eight read and write methods, whether they return or raise,
    assign no attribute of the object: base, size, aligned base, aligned size
    and the reference to the mapping stay as they were.  On an object
    constructed with [physaddr] and [size], after any sequence of calls,
    [base] returns [physaddr] and [size] returns [size]. *)
Theorem accessors_keep_attributes env p sz s0 cs :
  (forall o s, self (snd (read8 env o s)) = self s)
  /\ (forall o s, self (snd (read16 env o s)) = self s)
  /\ (forall o s, self (snd (read32 env o s)) = self s)
  /\ (forall o n s, self (snd (read o n s)) = self s)
  /\ (forall o v s, self (snd (write8 env o v s)) = self s)
  /\ (forall o v s, self (snd (write16 env o v s)) = self s)
  /\ (forall o v s, self (snd (write32 env o v s)) = self s)
  /\ (forall o d s, self (snd (write o d s)) = self s)
  /\ let s := run env cs (snd (__init__ env (PyInt p) (PyInt sz) s0)) in
     base s = (Return p, s) /\ size s = (Return sz, s).
Proof.
  split; [intros o; apply pure_keeps_self, pure_read8|].
  split; [intros o; apply pure_keeps_self, pure_read16|].
  split; [intros o; apply pure_keeps_self, pure_read32|].
  split; [intros o n; apply pure_keeps_self, pure_read|].
  split; [intros o v; apply keeps_self_write8|].
  split; [intros o v; apply keeps_self_write16|].
  split; [intros o v; apply keeps_self_write32|].
  split; [intros o d; apply keeps_self_write|].
  intros s. destruct (run_base_size env p sz s0 cs) as [Hp Hsz].
  split; [by apply base_eval | by apply size_eval].
Qed.

(** C10: on an object constructed with [physaddr] and [size], after any
    sequence of calls, [close()] leaves base, size, aligned base and aligned
    size as they were, and [base] and [size] then still return [physaddr] and
    [size]; a [close()] that returns has set [mapping] to [None], so that
    [pointer] raises, and one that raises has changed nothing. *)
Theorem base_and_size_after_close env p sz s0 cs :
  let s := run env cs (snd (__init__ env (PyInt p) (PyInt sz) s0)) in
  let s1 := snd (close s) in
  base s1 = (Return p, s1)
  /\ size s1 = (Return sz, s1)
  /\ metadata s1 = metadata s
  /\ match fst (close s) with
     | Return _ =>
         mapping (self s1) = None
         /\ pointer s1
            = (Raise (TypeError "memoryview: a bytes-like object is required, not 'NoneType'"),
               s1)
     | Raise _ => s1 = s
     end.
Proof.
  intros s s1.
  destruct (run_base_size env p sz s0 (cs ++ [Close])) as [Hp Hsz].
  unfold run in Hp, Hsz. rewrite foldl_app in Hp, Hsz. simpl in Hp, Hsz.
  fold (run env cs (snd (__init__ env (PyInt p) (PyInt sz) s0))) in Hp, Hsz.
  fold s in Hp, Hsz. fold s1 in Hp, Hsz.
  split; [by apply base_eval|]. split; [by apply size_eval|].
  split; [apply close_metadata|].
  pose proof (close_outcome s) as Ho. fold s1 in Ho.
  destruct (fst (close s)) as [[]|e]; [|exact Ho].
  split; [exact Ho|].
  unfold pointer. munfold. by rewrite Ho.
Qed.

(** * Further properties of the class *)

(** ** Stores into a buffer *)

Lemma lookup_store off bs data i :
  (off + length bs <= length data)%nat ->
  store off bs data !! i
  = if decide (i < off)%nat then data !! i
    else if decide (i < off + length bs)%nat then bs !! (i - off)%nat
    else data !! i.
Proof.
  intros H. unfold store.
  assert (Hl : length (take off data) = off) by (rewrite length_take; lia).
  repeat case_decide.
  - rewrite lookup_app_l by lia. apply lookup_take_lt. lia.
  - rewrite lookup_app_r by lia. rewrite Hl. by rewrite lookup_app_l by lia.
  - rewrite lookup_app_r by lia. rewrite Hl. rewrite lookup_app_r by lia.
    rewrite lookup_drop. f_equal. lia.
Qed.

Lemma store_nil off data : store off [] data = data.
Proof. unfold store. simpl. rewrite Nat.add_0_r. apply take_drop. Qed.

Lemma store_store_cons off b bs data :
  (off + S (length bs) <= length data)%nat ->
  store (S off) bs (store off [b] data) = store off (b :: bs) data.
Proof.
  intros H. apply list_eq. intros i.
  assert (H1 : length (store off [b] data) = length data)
    by (apply length_store; simpl; lia).
  rewrite !lookup_store by (simpl; lia). simpl.
  repeat case_decide; try lia; try done.
  - replace (i - off)%nat with 0%nat by lia. by replace i with off by lia.
  - by replace (i - off)%nat with (S (i - S off)) by lia.
Qed.

Lemma store_store off bs1 bs2 data :
  length bs1 = length bs2 -> (off + length bs1 <= length data)%nat ->
  store off bs2 (store off bs1 data) = store off bs2 data.
Proof.
  intros Hl H. apply list_eq. intros i.
  assert (H1 : length (store off bs1 data) = length data) by (apply length_store; lia).
  rewrite !lookup_store by lia.
  repeat case_decide; try lia; done.
Qed.

Lemma slice_store_disjoint off bs data off' n :
  (off + length bs <= length data)%nat ->
  (off' + n <= off \/ off + length bs <= off')%nat ->
  slice off' n (store off bs data) = slice off' n data.
Proof.
  intros H Hd. unfold slice. apply list_eq. intros i.
  destruct (decide (i < n)%nat).
  - rewrite !lookup_take_lt, !lookup_drop by done. rewrite lookup_store by done.
    repeat case_decide; try lia; done.
  - by rewrite !lookup_take_ge by lia.
Qed.

Lemma length_slice off n data :
  (off + n <= length data)%nat -> length (slice off n data) = n.
Proof. intros H. unfold slice. rewrite length_take, length_drop. lia. Qed.

Lemma length_slice_le off n data : (length (slice off n data) <= n)%nat.
Proof. unfold slice. rewrite length_take. lia. Qed.

(** ** Pokes into the store *)

Lemma poke_nil r off s : snd (poke r off [] s) = s.
Proof.
  destruct s as [o h]. unfold poke. simpl. f_equal.
  apply alter_id. intros [b c] _. simpl. by rewrite store_nil.
Qed.

Lemma poke_poke_cons r off b bs s m :
  heap s !! r = Some m ->
  (off + S (length bs) <= length (buf m))%nat ->
  snd (poke r (S off) bs (snd (poke r off [b] s))) = snd (poke r off (b :: bs) s).
Proof.
  intros Hm H. unfold poke. simpl. f_equal.
  apply map_eq. intros i. destruct (decide (r = i)) as [<-|Hne].
  - rewrite !lookup_alter_eq, Hm. simpl. by rewrite store_store_cons.
  - by rewrite !lookup_alter_ne.
Qed.

Lemma poke_poke r off bs1 bs2 s m :
  heap s !! r = Some m ->
  length bs1 = length bs2 ->
  (off + length bs1 <= length (buf m))%nat ->
  snd (poke r off bs2 (snd (poke r off bs1 s))) = snd (poke r off bs2 s).
Proof.
  intros Hm Hl H. unfold poke. simpl. f_equal.
  apply map_eq. intros i. destruct (decide (r = i)) as [<-|Hne].
  - rewrite !lookup_alter_eq, Hm. simpl. by rewrite store_store.
  - by rewrite !lookup_alter_ne.
Qed.


(** The loop of [write] stores the bytes of [data] one after the other; the
    outcome is [data] stored at index [i] of the view. *)
Lemma write_loop_poke c i data s m :
  heap s !! b_obj c = Some m ->
  (b_off c + i + length data <= length (buf m))%nat ->
  write_loop c i data s = (Return tt, snd (poke (b_obj c) (b_off c + i) data s)).
Proof.
  revert i s m. induction data as [|b data IH]; intros i s m Hm H.
  - by rewrite poke_nil.
  - cbn [write_loop]. unfold mbind, M_bind, bind, array_setitem.
    change (poke (b_obj c) (b_off c + i) [b] s)
      with (Return tt, snd (poke (b_obj c) (b_off c + i) [b] s)).
    cbv iota beta.
    assert (Hm' : heap (snd (poke (b_obj c) (b_off c + i) [b] s)) !! b_obj c
                  = Some {| buf := store (b_off c + i) [b] (buf m); closed := closed m;
                            exports := exports m |}).
    { simpl. by rewrite lookup_alter_eq, Hm. }
    rewrite (IH (S i) _ _ Hm').
    + replace (b_off c + S i)%nat with (S (b_off c + i)) by lia.
      by rewrite (poke_poke_cons _ _ _ _ _ m).
    + simpl in *. rewrite length_store by (simpl; lia). lia.
Qed.

(** ** Byte sequences *)

Lemma Z_of_byte_range b : 0 <= Z_of_byte b < 256.
Proof. unfold Z_of_byte. pose proof (Byte.to_N_bounded b). lia. Qed.

Lemma byte_of_Z_of_byte b : byte_of_Z (Z_of_byte b) = b.
Proof.
  unfold byte_of_Z. rewrite Z.mod_small by apply Z_of_byte_range.
  unfold Z_of_byte. by rewrite N2Z.id, Byte.of_to_N.
Qed.

Lemma bytes_of_items_int_list b s :
  bytes_of_items (map (fun x => PyInt (Z_of_byte x)) b) s = (Return b, s).
Proof.
  induction b as [|x b IH]; [done|].
  cbn [map bytes_of_items]. unfold mbind, M_bind, bind, byte_of_item.
  pose proof (Z_of_byte_range x).
  replace ((Z_of_byte x <? 0) || (255 <? Z_of_byte x)) with false by lia.
  cbn. rewrite IH. cbn. by rewrite byte_of_Z_of_byte.
Qed.

(** The three ways to hand the bytes [b] to [write]. *)
Lemma bytearray_eval data b s :
  data = PyBytes b \/ data = PyByteArray b \/ data = int_list b ->
  bytearray data s = (Return b, s)
  /\ py_len data = Z.of_nat (length b)
  /\ is_bytes_bytearray_or_list data = true.
Proof.
  intros [-> | [-> | ->]]; simpl; try done.
  by rewrite bytes_of_items_int_list, length_map.
Qed.

Section OpenBytes.

Variables (s : State) (r : loc) (m : mmap_t).
Hypothesis Hr : mapping (self s) = Some r.
Hypothesis Hm : heap s !! r = Some m.
Hypothesis Hlive : closed m = false.

Lemma load_bytes_open off n :
  0 <= off -> 0 <= n -> off + n <= Z.of_nat (length (buf m)) ->
  load_bytes off n s = (Return (slice (Z.to_nat off) (Z.to_nat n) (buf m)), s).
Proof using Hr Hm Hlive.
  intros H0 Hn H1. unfold load_bytes, c_uint8_array. munfold.
  replace (n <? 0) with false by lia. rewrite Hr.
  rewrite <- (Z2Nat.id n) at 1 by done.
  rewrite (from_buffer_open s r m Hm Hlive) by lia.
  unfold array_bytes, contents. simpl. by rewrite Hm.
Qed.

Lemma store_bytes_open off data b :
  bytearray data s = (Return b, s) ->
  0 <= off -> off + Z.of_nat (length b) <= Z.of_nat (length (buf m)) ->
  store_bytes off data s = (Return tt, snd (poke r (Z.to_nat off) b s)).
Proof using Hr Hm Hlive.
  intros Hb H0 H1. unfold store_bytes, c_uint8_array. munfold. rewrite Hb.
  replace (Z.of_nat (length b) <? 0) with false by lia. rewrite Hr.
  rewrite (from_buffer_open s r m Hm Hlive) by lia.
  rewrite (write_loop_poke _ 0 b s m) by (simpl; done || lia).
  simpl. by rewrite Nat.add_0_r.
Qed.

End OpenBytes.

(** X1: on an open region, [write(offset, data)] with [data] a bytes object, a
    bytearray or a list of the integers of some bytes [b], at an integer
    offset whose adjusted offset is not negative and leaves room for [b],
    returns, and [read(offset, len(b))] then returns [b]. *)
Theorem write_then_read s p a asz o data b :
  is_open s = true ->
  _physaddr (self s) = Some p ->
  _aligned_physaddr (self s) = Some a ->
  _aligned_size (self s) = Some asz ->
  data = PyBytes b \/ data = PyByteArray b \/ data = int_list b ->
  0 <= o + (p - a) ->
  o + (p - a) + Z.of_nat (length b) <= asz ->
  exists s', write (PyInt o) data s = (Return tt, s')
             /\ read (PyInt o) (Z.of_nat (length b)) s' = (Return b, s').
Proof.
  intros Hopen Hp Ha Hasz Hd H0 H1.
  destruct (is_open_inv s Hopen) as (r & m & Hr & Hm & Hlive & Hlen).
  rewrite Hasz in Hlen. injection Hlen as ->.
  destruct (bytearray_eval data b s Hd) as (Hb & Hl & Hty).
  set (s' := snd (poke r (Z.to_nat (o + (p - a))) b s)).
  assert (Hfit : (Z.to_nat (o + (p - a)) + length b <= length (buf m))%nat) by lia.
  pose proof (poke_lookup s r m Hm Hlive (Z.to_nat (o + (p - a))) b) as Hm'.
  fold s' in Hm'.
  exists s'. split.
  - rewrite (write_eval s p a _ Hp Ha Hasz) by done. rewrite Hl.
    replace (_ >? _) with false by lia.
    by apply (store_bytes_open s r m).
  - rewrite (read_eval s' p a _ Hp Ha Hasz).
    replace (_ >? _) with false by lia.
    rewrite (load_bytes_open s' r _ Hr Hm' eq_refl); simpl.
    + by rewrite Nat2Z.id, slice_store.
    + done.
    + lia.
    + rewrite length_store by done. lia.
Qed.

Lemma write_then_read_witness :
  is_open example_region = true
  /\ metadata example_region = (Some 0x1004, Some 8, Some 0x1000, Some 12)
  /\ 0 <= 2 + (0x1004 - 0x1000)
  /\ 2 + (0x1004 - 0x1000) + Z.of_nat (length [Byte.x01; Byte.xff; Byte.x7f]) <= 12
  /\ exists s', write (PyInt 2) (PyList [PyInt 1; PyInt 255; PyInt 127]) example_region
                = (Return tt, s')
                /\ read (PyInt 2) (Z.of_nat (length [Byte.x01; Byte.xff; Byte.x7f])) s'
                   = (Return [Byte.x01; Byte.xff; Byte.x7f], s').
Proof.
  split; [vm_compute; reflexivity|].
  split; [vm_compute; reflexivity|].
  split; [vm_compute; discriminate|].
  split; [vm_compute; discriminate|].
  apply (write_then_read example_region 0x1004 0x1000 12 2
           (PyList [PyInt 1; PyInt 255; PyInt 127]) [Byte.x01; Byte.xff; Byte.x7f]);
    first [ reflexivity | vm_compute; reflexivity | vm_compute; discriminate
          | right; right; reflexivity ].
Defined.

(** ** Failed writes *)

Lemma fails_cleanly_raise {A} e : fails_cleanly (raise e : M A).
Proof. intros s. right. by exists e. Qed.

Lemma fails_cleanly_pure {A} (m : M A) : pure m -> fails_cleanly m.
Proof.
  intros H s. specialize (H s). destruct (m s) as [[x|e] s']; simpl in H; subst s'.
  - left. by exists x, s.
  - right. by exists e.
Qed.

Lemma fails_cleanly_bind {A B} (m : M A) (k : A -> M B) :
  pure m -> (forall x, fails_cleanly (k x)) -> fails_cleanly (m ≫= k).
Proof.
  intros Hm Hk s. unfold mbind, M_bind, bind.
  specialize (Hm s). destruct (m s) as [[x|e] s']; simpl in Hm; subst s'.
  - apply Hk.
  - right. by exists e.
Qed.

Lemma fails_cleanly_poke r off bs : fails_cleanly (poke r off bs).
Proof. intros s. left. by eexists _, _. Qed.

Lemma write_loop_returns c i data s : fst (write_loop c i data s) = Return tt.
Proof.
  pose proof (cannot_raise_write_loop) as H.
  destruct (write_loop c i data s) as [[[]|e] s'] eqn:E; [done|].
  specialize (H e c i data s). by rewrite E in H.
Qed.

Lemma fails_cleanly_write_loop c i data : fails_cleanly (write_loop c i data).
Proof.
  intros s. left. pose proof (write_loop_returns c i data s) as H.
  destruct (write_loop c i data s) as [x s']. simpl in H. subst x. by eexists _, _.
Qed.

#[export] Hint Resolve fails_cleanly_raise fails_cleanly_poke fails_cleanly_write_loop : frame.

Ltac clean :=
  repeat first
    [ progress intros
    | apply fails_cleanly_bind; [solve [auto with frame]|]
    | solve [auto with frame]
    | solve [apply fails_cleanly_pure; auto with frame]
    | case_match ].

Lemma writes_fail_cleanly_aux env :
  (forall w offset value, fails_cleanly (writeW env w offset value))
  /\ (forall offset data, fails_cleanly (write offset data)).
Proof.
  split.
  - intros [] offset value; unfold writeW, write8, write16, write32, set_value; clean.
  - intros offset data. unfold write. clean.
Qed.

(** X2: a [write8], [write16], [write32] or [write] that raises, for
    whatever reason and whatever its arguments, has changed nothing: neither
    the object nor a single mapped byte. *)
Theorem writes_fail_cleanly env :
  (forall w offset value, fails_cleanly (writeW env w offset value))
  /\ (forall offset data, fails_cleanly (write offset data)).
Proof. apply writes_fail_cleanly_aux. Qed.

(** ** Arguments of the wrong class *)

(** X3: an offset that is not an integer makes every accessor raise the
    [TypeError] for the offset, whatever the other argument and whatever the
    state of the object; with an integer offset, [write8/16/32] raise the
    [TypeError] for a value that is not an integer, and [write] the one for
    data that is neither bytes, bytearray nor list.  Nothing is changed. *)
Theorem argument_type_errors env offset value data s :
  (forall k, offset <> PyInt k) ->
  (forall k, value <> PyInt k) ->
  is_bytes_bytearray_or_list data = false ->
  (forall w, readW env w offset s
             = (Raise (TypeError "Invalid offset type, should be integer."), s))
  /\ (forall n, read offset n s
                = (Raise (TypeError "Invalid offset type, should be integer."), s))
  /\ (forall w v, writeW env w offset v s
                  = (Raise (TypeError "Invalid offset type, should be integer."), s))
  /\ (forall d, write offset d s
                = (Raise (TypeError "Invalid offset type, should be integer."), s))
  /\ (forall w o, writeW env w (PyInt o) value s
                  = (Raise (TypeError "Invalid value type, should be integer."), s))
  /\ (forall o, write (PyInt o) data s
                = (Raise (TypeError "Invalid data type, expected bytes, bytearray, or list."),
                   s)).
Proof.
  intros Hoff Hval Hdata.
  assert (Hr : forall w, readW env w offset s
                 = (Raise (TypeError "Invalid offset type, should be integer."), s)).
  { intros []; destruct offset; try done; by destruct (Hoff n). }
  assert (Hw : forall w v, writeW env w offset v s
                 = (Raise (TypeError "Invalid offset type, should be integer."), s)).
  { intros [] v; destruct offset; try done; by destruct (Hoff n). }
  split; [exact Hr|].
  split; [intros n; destruct offset; try done; by destruct (Hoff n0)|].
  split; [exact Hw|].
  split; [intros d; destruct offset; try done; by destruct (Hoff n)|].
  split; [intros [] o; destruct value; try done; by destruct (Hval n)|].
  intros o. unfold write. by rewrite Hdata.
Qed.

Lemma argument_type_errors_witness :
  (forall k, PyNone <> PyInt k)
  /\ (forall k, PyStr "7" <> PyInt k)
  /\ is_bytes_bytearray_or_list (PyInt 7) = false
  /\ readW example_env W32 PyNone example_region
     = (Raise (TypeError "Invalid offset type, should be integer."), example_region)
  /\ writeW example_env W8 (PyInt 0) (PyStr "7") example_region
     = (Raise (TypeError "Invalid value type, should be integer."), example_region)
  /\ write (PyInt 0) (PyInt 7) example_region
     = (Raise (TypeError "Invalid data type, expected bytes, bytearray, or list."),
        example_region).
Proof.
  assert (H1 : forall k, PyNone <> PyInt k) by (intros k; discriminate).
  assert (H2 : forall k, PyStr "7" <> PyInt k) by (intros k; discriminate).
  assert (H3 : is_bytes_bytearray_or_list (PyInt 7) = false) by reflexivity.
  pose proof (argument_type_errors example_env PyNone (PyStr "7") (PyInt 7) example_region
                H1 H2 H3) as (Hr & _ & _ & _ & Hv & Hd).
  split; [exact H1|]. split; [exact H2|]. split; [exact H3|].
  split; [apply Hr|]. split; [apply Hv | apply Hd].
Defined.

(** ** Construction that fails *)

Ltac init_unfold :=
  unfold __init__, _open, set_mapping, set_physaddr, set_size, set_aligned_physaddr,
    set_aligned_size, os_sysconf_pagesize, py_mod, try_OSError, os_open_dev_mem,
    mmap_mmap, os_close, alloc;
  munfold; simpl.



(** X5: when the mapping is made but the descriptor of [/dev/mem] cannot be
    closed, the constructor raises [MMIOError] ("Closing /dev/mem: ...") on an
    object that already holds the live mapping; [__del__] on that object
    releases it. *)
Theorem construction_close_failure env p sz s0 fd errno strerror :
  SC_PAGESIZE env <> 0 ->
  0 <= sz + (p - (p - p mod SC_PAGESIZE env)) ->
  0 <= p - p mod SC_PAGESIZE env ->
  dev_mem_open env = inr fd ->
  dev_mem_mmap env = None ->
  dev_mem_close env = Some (errno, strerror) ->
  exists s' r,
    __init__ env (PyInt p) (PyInt sz) s0
    = (Raise (MMIOError errno ("Closing /dev/mem: " +:+ strerror)), s')
    /\ is_open s' = true
    /\ mapping (self s') = Some r
    /\ released r s' = false
    /\ released r (snd (__del__ s')) = true
    /\ mapping (self (snd (__del__ s'))) = None.
Proof.
  intros Hps Hsz Hoff Ho Hm Hc. apply Z.eqb_neq in Hps.
  assert (Hsz' := Hsz). apply Z.ltb_ge in Hsz', Hoff.
  eexists _, (fresh (dom (heap s0))). split.
  { init_unfold. rewrite Hps. simpl. rewrite Ho. simpl.
    rewrite Hsz', Hoff, Hm. simpl. rewrite Hc. reflexivity. }
  unfold is_open, released, __del__, close, mmap_close, set_mapping, set_fd. munfold. simpl.
  rewrite !lookup_insert_eq. simpl. rewrite lookup_insert_eq. simpl.
  rewrite length_map, length_seq, Z2Nat.id by done.
  repeat split; try done. by apply bool_decide_eq_true.
Qed.

Lemma construction_close_failure_witness :
  let env := {| SC_PAGESIZE := 0x1000; byteorder := Little; dev_mem_open := inr 3;
                dev_mem_mmap := None; dev_mem_close := Some (9, "Bad file descriptor");
                physmem := fun _ => Byte.x00 |} in
  SC_PAGESIZE env <> 0
  /\ 0 <= 8 + (0x1004 - (0x1004 - 0x1004 mod SC_PAGESIZE env))
  /\ 0 <= 0x1004 - 0x1004 mod SC_PAGESIZE env
  /\ exists s' r,
       __init__ env (PyInt 0x1004) (PyInt 8) (fresh_object ∅)
       = (Raise (MMIOError 9 ("Closing /dev/mem: " +:+ "Bad file descriptor")), s')
       /\ is_open s' = true
       /\ mapping (self s') = Some r
       /\ released r s' = false
       /\ released r (snd (__del__ s')) = true
       /\ mapping (self (snd (__del__ s'))) = None.
Proof.
  intros env.
  assert (H1 : SC_PAGESIZE env <> 0) by (vm_compute; discriminate).
  assert (H2 : 0 <= 8 + (0x1004 - (0x1004 - 0x1004 mod SC_PAGESIZE env)))
    by (vm_compute; discriminate).
  assert (H3 : 0 <= 0x1004 - 0x1004 mod SC_PAGESIZE env) by (vm_compute; discriminate).
  split; [exact H1|]. split; [exact H2|]. split; [exact H3|].
  exact (construction_close_failure env 0x1004 8 (fresh_object ∅) 3 9
           "Bad file descriptor" H1 H2 H3 eq_refl eq_refl eq_refl).
Defined.

(** ** What a write changes *)


Section OpenWrites.

Variable env : Env.
Variables (s : State) (p a : Z) (r : loc) (m : mmap_t).
Hypothesis Hp : _physaddr (self s) = Some p.
Hypothesis Ha : _aligned_physaddr (self s) = Some a.
Hypothesis Hasz : _aligned_size (self s) = Some (Z.of_nat (length (buf m))).
Hypothesis Hr : mapping (self s) = Some r.
Hypothesis Hm : heap s !! r = Some m.
Hypothesis Hlive : closed m = false.

Lemma writeW_open w o v :
  0 <= v <= 2 ^ bits w - 1 ->
  0 <= o + (p - a) ->
  o + (p - a) + Z.of_nat (nbytes w) <= Z.of_nat (length (buf m)) ->
  writeW env w (PyInt o) (PyInt v) s
  = (Return tt,
     snd (poke r (Z.to_nat (o + (p - a))) (encode (byteorder env) (nbytes w) v) s)).
Proof using Hp Ha Hasz Hr Hm Hlive.
  intros Hv H0 H1. rewrite (writeW_eval env s p a _ Hp Ha Hasz) by done.
  replace (_ >? _) with false by lia.
  by apply (store_value_open env s r m).
Qed.

Lemma write_open o data b :
  data = PyBytes b \/ data = PyByteArray b \/ data = int_list b ->
  0 <= o + (p - a) ->
  o + (p - a) + Z.of_nat (length b) <= Z.of_nat (length (buf m)) ->
  write (PyInt o) data s = (Return tt, snd (poke r (Z.to_nat (o + (p - a))) b s)).
Proof using Hp Ha Hasz Hr Hm Hlive.
  intros Hd H0 H1. destruct (bytearray_eval data b s Hd) as (Hb & Hl & Hty).
  rewrite (write_eval s p a _ Hp Ha Hasz) by done. rewrite Hl.
  replace (_ >? _) with false by lia.
  by apply (store_bytes_open s r m).
Qed.

Lemma readW_open w o :
  0 <= o + (p - a) ->
  o + (p - a) + Z.of_nat (nbytes w) <= Z.of_nat (length (buf m)) ->
  readW env w (PyInt o) s
  = (Return (decode (byteorder env) (slice (Z.to_nat (o + (p - a))) (nbytes w) (buf m))), s).
Proof using Hp Ha Hasz Hr Hm Hlive.
  intros H0 H1. rewrite (readW_eval env s p a _ Hp Ha Hasz).
  replace (_ >? _) with false by lia.
  by apply (load_open env s r m).
Qed.

Lemma read_open o n :
  0 <= n ->
  0 <= o + (p - a) ->
  o + (p - a) + n <= Z.of_nat (length (buf m)) ->
  read (PyInt o) n s
  = (Return (slice (Z.to_nat (o + (p - a))) (Z.to_nat n) (buf m)), s).
Proof using Hp Ha Hasz Hr Hm Hlive.
  intros Hn H0 H1. rewrite (read_eval s p a _ Hp Ha Hasz).
  replace (_ >? _) with false by lia.
  by apply (load_bytes_open s r m).
Qed.

End OpenWrites.



(** ** Reads next to writes *)

Lemma load_poke_disjoint env r off bs s m n' off' :
  mapping (self s) = Some r ->
  heap s !! r = Some m ->
  0 <= off ->
  off + Z.of_nat (length bs) <= Z.of_nat (length (buf m)) ->
  off' + Z.of_nat n' <= off \/ off + Z.of_nat (length bs) <= off' ->
  fst (load env n' off' (snd (poke r (Z.to_nat off) bs s))) = fst (load env n' off' s).
Proof.
  intros Hr Hm H0 H1 Hd. unfold load. munfold. simpl. rewrite Hr.
  unfold from_buffer. simpl. rewrite lookup_alter_eq, Hm. simpl.
  rewrite length_store by lia.
  destruct (closed m); [done|].
  destruct (off' <? 0) eqn:E0; [done|].
  destruct (Z.of_nat (length (buf m)) - off' <? Z.of_nat n') eqn:E1; [done|].
  unfold get_value, contents. simpl. rewrite lookup_alter_eq, Hm. simpl.
  by rewrite slice_store_disjoint by lia.
Qed.

(** X7: on an open region, a [writeW] in bounds does not change what a
    [readW'] of bytes disjoint from the ones written gives, be it a value or
    an error. *)
Theorem write_keeps_disjoint_reads env s p a asz o w v o' w' :
  is_open s = true ->
  _physaddr (self s) = Some p ->
  _aligned_physaddr (self s) = Some a ->
  _aligned_size (self s) = Some asz ->
  0 <= v <= 2 ^ bits w - 1 ->
  0 <= o + (p - a) ->
  o + (p - a) + bits w / 8 <= asz ->
  o' + bits w' / 8 <= o \/ o + bits w / 8 <= o' ->
  exists s', writeW env w (PyInt o) (PyInt v) s = (Return tt, s')
             /\ fst (readW env w' (PyInt o') s') = fst (readW env w' (PyInt o') s).
Proof.
  intros Hopen Hp Ha Hasz Hv H0 H1 Hd. rewrite !bits_nbytes in *.
  destruct (is_open_inv s Hopen) as (r & m & Hr & Hm & Hlive & Hlen).
  assert (Hasz' := Hasz). rewrite Hlen in Hasz'. injection Hasz' as <-.
  eexists. split; [by apply (writeW_open env s p a r m)|].
  set (s' := snd (poke _ _ _ _)).
  rewrite (readW_eval env s' p a _ Hp Ha Hasz), (readW_eval env s p a _ Hp Ha Hasz).
  destruct (_ >? _); [done|].
  apply (load_poke_disjoint env r _ _ s m); try done; rewrite length_encode; lia.
Qed.

Lemma write_keeps_disjoint_reads_witness :
  is_open example_region = true
  /\ metadata example_region = (Some 0x1004, Some 8, Some 0x1000, Some 12)
  /\ 0 <= 0xBEEF <= 2 ^ bits W16 - 1
  /\ 0 <= 4 + (0x1004 - 0x1000)
  /\ 4 + (0x1004 - 0x1000) + bits W16 / 8 <= 12
  /\ (0 + bits W32 / 8 <= 4 \/ 4 + bits W16 / 8 <= 0)
  /\ exists s', writeW example_env W16 (PyInt 4) (PyInt 0xBEEF) example_region = (Return tt, s')
                /\ fst (readW example_env W32 (PyInt 0) s')
                   = fst (readW example_env W32 (PyInt 0) example_region).
Proof.
  assert (Hv : 0 <= 0xBEEF <= 2 ^ bits W16 - 1) by (vm_compute; split; discriminate).
  assert (H0 : 0 <= 4 + (0x1004 - 0x1000)) by (vm_compute; discriminate).
  assert (H1 : 4 + (0x1004 - 0x1000) + bits W16 / 8 <= 12) by (vm_compute; discriminate).
  assert (Hd : 0 + bits W32 / 8 <= 4 \/ 4 + bits W16 / 8 <= 0)
    by (left; vm_compute; discriminate).
  split; [reflexivity|]. split; [reflexivity|]. split; [exact Hv|]. split; [exact H0|].
  split; [exact H1|]. split; [exact Hd|].
  exact (write_keeps_disjoint_reads example_env example_region 0x1004 0x1000 12 4 W16 0xBEEF
           0 W32 eq_refl eq_refl eq_refl eq_refl Hv H0 H1 Hd).
Defined.

(** X8: on an open region, of two [writeW] in bounds at the same offset the
    second one wins: the state after both is the state after the second
    alone. *)
Theorem last_write_wins env s p a asz o w v1 v2 :
  is_open s = true ->
  _physaddr (self s) = Some p ->
  _aligned_physaddr (self s) = Some a ->
  _aligned_size (self s) = Some asz ->
  0 <= v1 <= 2 ^ bits w - 1 ->
  0 <= v2 <= 2 ^ bits w - 1 ->
  0 <= o + (p - a) ->
  o + (p - a) + bits w / 8 <= asz ->
  exists s1 s2,
    writeW env w (PyInt o) (PyInt v1) s = (Return tt, s1)
    /\ writeW env w (PyInt o) (PyInt v2) s1 = (Return tt, s2)
    /\ writeW env w (PyInt o) (PyInt v2) s = (Return tt, s2).
Proof.
  intros Hopen Hp Ha Hasz Hv1 Hv2 H0 H1. rewrite !bits_nbytes in *.
  destruct (is_open_inv s Hopen) as (r & m & Hr & Hm & Hlive & Hlen).
  assert (Hasz' := Hasz). rewrite Hlen in Hasz'. injection Hasz' as <-.
  set (off := Z.to_nat (o + (p - a))).
  set (bs1 := encode (byteorder env) (nbytes w) v1).
  set (bs2 := encode (byteorder env) (nbytes w) v2).
  assert (Hl1 : length bs1 = nbytes w) by apply length_encode.
  assert (Hl2 : length bs2 = nbytes w) by apply length_encode.
  set (s1 := snd (poke r off bs1 s)).
  pose proof (poke_lookup s r m Hm Hlive off bs1) as Hm1. fold s1 in Hm1.
  assert (Hasz1 : _aligned_size (self s1)
                  = Some (Z.of_nat (length (buf {| buf := store off bs1 (buf m);
                                                   closed := false;
                                                   exports := exports m |})))).
  { simpl. rewrite length_store by lia. exact Hlen. }
  exists s1, (snd (poke r off bs2 s)).
  split; [by apply (writeW_open env s p a r m)|].
  split; [|by apply (writeW_open env s p a r m)].
  rewrite (writeW_open env s1 p a r _ Hp Ha Hasz1 Hr Hm1 eq_refl) by
    (try done; simpl; rewrite length_store by lia; lia).
  f_equal. apply (poke_poke r off bs1 bs2 s m); [done|congruence|lia].
Qed.

Lemma last_write_wins_witness :
  is_open example_region = true
  /\ metadata example_region = (Some 0x1004, Some 8, Some 0x1000, Some 12)
  /\ 0 <= 0x11 <= 2 ^ bits W8 - 1
  /\ 0 <= 0x22 <= 2 ^ bits W8 - 1
  /\ 0 <= 7 + (0x1004 - 0x1000)
  /\ 7 + (0x1004 - 0x1000) + bits W8 / 8 <= 12
  /\ exists s1 s2,
       writeW example_env W8 (PyInt 7) (PyInt 0x11) example_region = (Return tt, s1)
       /\ writeW example_env W8 (PyInt 7) (PyInt 0x22) s1 = (Return tt, s2)
       /\ writeW example_env W8 (PyInt 7) (PyInt 0x22) example_region = (Return tt, s2).
Proof.
  assert (Hv1 : 0 <= 0x11 <= 2 ^ bits W8 - 1) by (vm_compute; split; discriminate).
  assert (Hv2 : 0 <= 0x22 <= 2 ^ bits W8 - 1) by (vm_compute; split; discriminate).
  assert (H0 : 0 <= 7 + (0x1004 - 0x1000)) by (vm_compute; discriminate).
  assert (H1 : 7 + (0x1004 - 0x1000) + bits W8 / 8 <= 12) by (vm_compute; discriminate).
  split; [reflexivity|]. split; [reflexivity|]. split; [exact Hv1|]. split; [exact Hv2|].
  split; [exact H0|]. split; [exact H1|].
  exact (last_write_wins example_env example_region 0x1004 0x1000 12 7 W8 0x11 0x22
           eq_refl eq_refl eq_refl eq_refl Hv1 Hv2 H0 H1).
Defined.

(** ** What the reads return *)

Lemma bind_return_inv {A B} (m : M A) (k : A -> M B) s y s' :
  (m ≫= k) s = (Return y, s') ->
  exists x s1, m s = (Return x, s1) /\ k x s1 = (Return y, s').
Proof.
  unfold mbind, M_bind, bind. destruct (m s) as [[x|e] s1]; [|done].
  intros H. by exists x, s1.
Qed.

Lemma pure_return_inv {A} (m : M A) s x s' : pure m -> m s = (Return x, s') -> s' = s.
Proof. intros Hp H. specialize (Hp s). rewrite H in Hp. done. Qed.

Lemma from_buffer_return_inv sz src off s c s' :
  from_buffer sz src off s = (Return c, s') ->
  s' = s
  /\ exists r m, src = Some r /\ heap s !! r = Some m /\ closed m = false
                 /\ 0 <= off /\ off + sz <= Z.of_nat (length (buf m))
                 /\ c = {| b_obj := r; b_off := Z.to_nat off |}.
Proof.
  unfold from_buffer. intros H.
  destruct src as [r|]; [|done].
  destruct (heap s !! r) as [m|] eqn:Hm; [|done].
  destruct (closed m) eqn:Hc; [done|].
  destruct (off <? 0) eqn:E0; [done|].
  destruct (Z.of_nat (length (buf m)) - off <? sz) eqn:E1; [done|].
  injection H as <- <-. split; [done|].
  exists r, m. repeat split; try done; lia.
Qed.

Lemma le_value_bound bs : 0 <= le_value bs < 256 ^ Z.of_nat (length bs).
Proof.
  induction bs as [|b bs IH]; [simpl; lia|].
  cbn [le_value length]. rewrite Nat2Z.inj_succ, Z.pow_succ_r by lia.
  pose proof (Z_of_byte_range b). lia.
Qed.

Lemma decode_bound e bs n :
  (length bs <= n)%nat -> 0 <= decode e bs < 256 ^ Z.of_nat n.
Proof.
  intros H.
  assert (Hb : 0 <= decode e bs < 256 ^ Z.of_nat (length bs)).
  { destruct e; simpl; [|rewrite <- (length_rev bs)]; apply le_value_bound. }
  assert (256 ^ Z.of_nat (length bs) <= 256 ^ Z.of_nat n)
    by (apply Z.pow_le_mono_r; lia).
  lia.
Qed.

Lemma load_return_inv env n off s v s' :
  load env n off s = (Return v, s') ->
  s' = s
  /\ exists r m, mapping (self s) = Some r /\ heap s !! r = Some m /\ closed m = false
                 /\ 0 <= off /\ off + Z.of_nat n <= Z.of_nat (length (buf m))
                 /\ v = decode (byteorder env) (slice (Z.to_nat off) n (buf m)).
Proof.
  unfold load. intros H.
  apply bind_return_inv in H as (src & s1 & Hsrc & H).
  unfold get_mapping in Hsrc. injection Hsrc as <- <-.
  apply bind_return_inv in H as (c & s2 & Hc & H).
  apply from_buffer_return_inv in Hc as (-> & r & m & Hr & Hm & Hlive & H0 & H1 & ->).
  unfold get_value, contents in H. simpl in H. rewrite Hm in H. simpl in H.
  injection H as <- <-. split; [done|]. by exists r, m.
Qed.

Lemma readW_return_inv env w offset s v s' :
  readW env w offset s = (Return v, s') ->
  exists o off, offset = PyInt o
                /\ _adjust_offset o s = (Return off, s)
                /\ _validate_offset off (Z.of_nat (nbytes w)) s = (Return tt, s)
                /\ load env (nbytes w) off s = (Return v, s').
Proof.
  intros H. destruct offset as [| o | | | |]; try (by destruct w).
  exists o.
  assert (H' : (off ← _adjust_offset o;
                _validate_offset off (Z.of_nat (nbytes w));; load env (nbytes w) off) s
               = (Return v, s')) by (by destruct w).
  apply bind_return_inv in H' as (off & s1 & Hadj & H').
  pose proof (pure_return_inv _ _ _ _ (pure_adjust_offset o) Hadj) as ->.
  apply bind_return_inv in H' as ([] & s2 & Hval & H').
  pose proof (pure_return_inv _ _ _ _ (pure_validate_offset _ _) Hval) as ->.
  by exists off.
Qed.

(** X9: whatever [read8], [read16] or [read32] returns is an unsigned integer
    of that width, and the read has changed nothing. *)
Theorem reads_are_unsigned env w offset s v s' :
  readW env w offset s = (Return v, s') ->
  0 <= v < 2 ^ bits w /\ s' = s.
Proof.
  intros H. apply readW_return_inv in H as (o & off & -> & _ & _ & H).
  apply load_return_inv in H as (-> & r & m & _ & _ & _ & _ & _ & ->).
  split; [|done]. rewrite pow_bits_nbytes.
  apply decode_bound, length_slice_le.
Qed.

Lemma reads_are_unsigned_witness :
  readW example_env W16 (PyInt 2) example_region = (Return 0, example_region)
  /\ 0 <= 0 < 2 ^ bits W16 /\ example_region = example_region.
Proof.
  assert (H : readW example_env W16 (PyInt 2) example_region = (Return 0, example_region))
    by (vm_compute; reflexivity).
  split; [exact H|].
  exact (reads_are_unsigned example_env W16 (PyInt 2) example_region 0 example_region H).
Defined.

Lemma map_result_bind {A B C} (f : B -> C) (m : M A) (k : A -> M B) (k' : A -> M C) s :
  (forall x s1, k' x s1 = map_result f (k x s1)) ->
  (m ≫= k') s = map_result f ((m ≫= k) s).
Proof.
  intros H. unfold mbind, M_bind, bind, map_result.
  destruct (m s) as [[x|e] s1]; simpl; [apply H | done].
Qed.

Lemma load_decodes_load_bytes env n off s :
  load env n off s = map_result (decode (byteorder env)) (load_bytes off (Z.of_nat n) s).
Proof.
  unfold load, load_bytes, c_uint8_array.
  assert (E : (Z.of_nat n <? 0) = false) by (apply Z.ltb_ge; lia).
  rewrite E.
  change (mret (Z.of_nat n) ≫= ?k) with (k (Z.of_nat n)).
  apply map_result_bind. intros src s1.
  apply map_result_bind. intros c s2.
  unfold get_value, array_bytes, map_result. simpl. by rewrite Nat2Z.id.
Qed.

(** X10: [read8], [read16] and [read32] give the integer that the bytes
    [read] returns at the same offset stand for in the byte order of the
    host, and fail as [read] fails there, on any object and for any
    argument. *)
Theorem readW_decodes_read env w offset s :
  readW env w offset s
  = map_result (decode (byteorder env)) (read offset (bits w / 8) s).
Proof.
  destruct offset as [| o | | | |]; try (by destruct w).
  assert (Hl : readW env w (PyInt o) s
               = (off ← _adjust_offset o;
                  _validate_offset off (Z.of_nat (nbytes w));; load env (nbytes w) off) s)
    by (by destruct w).
  rewrite Hl, bits_nbytes. unfold read.
  apply map_result_bind. intros off s1.
  apply map_result_bind. intros _ s2.
  apply load_decodes_load_bytes.
Qed.

Lemma read_return_inv offset n s bs s' :
  read offset n s = (Return bs, s') ->
  exists o off, offset = PyInt o
                /\ _adjust_offset o s = (Return off, s)
                /\ _validate_offset off n s = (Return tt, s)
                /\ load_bytes off n s = (Return bs, s').
Proof.
  intros H. destruct offset as [| o | | | |]; try done.
  exists o. unfold read in H.
  apply bind_return_inv in H as (off & s1 & Hadj & H).
  pose proof (pure_return_inv _ _ _ _ (pure_adjust_offset o) Hadj) as ->.
  apply bind_return_inv in H as ([] & s2 & Hval & H).
  pose proof (pure_return_inv _ _ _ _ (pure_validate_offset _ _) Hval) as ->.
  by exists off.
Qed.

(** X11: what [read(offset, length)] returns has exactly [length] bytes, and
    the read has changed nothing. *)
Theorem read_returns_length offset n s bs s' :
  read offset n s = (Return bs, s') ->
  Z.of_nat (length bs) = n /\ s' = s.
Proof.
  intros H. apply read_return_inv in H as (o & off & -> & _ & _ & H).
  unfold load_bytes, c_uint8_array in H.
  destruct (n <? 0) eqn:En; [done|]. apply Z.ltb_ge in En.
  change (mret n ≫= ?k) with (k n) in H.
  apply bind_return_inv in H as (src & s1 & Hsrc & H).
  unfold get_mapping in Hsrc. injection Hsrc as <- <-.
  apply bind_return_inv in H as (c & s2 & Hc & H).
  apply from_buffer_return_inv in Hc as (-> & r & m & Hr & Hm & Hlive & H0 & H1 & ->).
  unfold array_bytes, contents in H. simpl in H. rewrite Hm in H. simpl in H.
  injection H as <- <-. split; [|done].
  rewrite length_slice by lia. lia.
Qed.

Lemma read_returns_length_witness :
  read (PyInt 1) 3 example_region = (Return [Byte.x00; Byte.x00; Byte.x00], example_region)
  /\ Z.of_nat (length [Byte.x00; Byte.x00; Byte.x00]) = 3
  /\ example_region = example_region.
Proof.
  assert (H : read (PyInt 1) 3 example_region
              = (Return [Byte.x00; Byte.x00; Byte.x00], example_region))
    by (vm_compute; reflexivity).
  split; [exact H|].
  exact (read_returns_length (PyInt 1) 3 example_region _ example_region H).
Defined.

(** ** Integers written as bytes *)

Lemma bind_ext {A B} (m : M A) (k k' : A -> M B) s :
  (forall x s1, k x s1 = k' x s1) -> (m ≫= k) s = (m ≫= k') s.
Proof.
  intros H. unfold mbind, M_bind, bind. destruct (m s) as [[x|e] s1]; [apply H | done].
Qed.

Lemma store_value_store_bytes env n off v s :
  store_value env n off v s = store_bytes off (PyBytes (encode (byteorder env) n v)) s.
Proof.
  unfold store_value, store_bytes, bytearray, c_uint8_array.
  change (mret ?b ≫= ?k) with (k b). cbv beta. rewrite length_encode.
  assert (E : (Z.of_nat n <? 0) = false) by (apply Z.ltb_ge; lia).
  rewrite E. change (mret ?b ≫= ?k) with (k b). cbv beta.
  apply bind_ext. intros src s1. unfold mbind, M_bind, bind.
  destruct (from_buffer (Z.of_nat n) src off s1) as [[c|e] s2] eqn:Hc; [|done].
  apply from_buffer_return_inv in Hc as (-> & r & m & Hr & Hm & Hlive & H0 & H1 & ->).
  rewrite (write_loop_poke _ 0 _ s1 m) by (simpl; done || (rewrite length_encode; lia)).
  simpl. by rewrite Nat.add_0_r.
Qed.

Lemma writeW_chain env w o v s :
  0 <= v <= 2 ^ bits w - 1 ->
  writeW env w (PyInt o) (PyInt v) s
  = (off ← _adjust_offset o;
     _validate_offset off (Z.of_nat (nbytes w));; store_value env (nbytes w) off v) s.
Proof.
  intros Hv.
  destruct w; simpl in Hv; unfold writeW, write8, write16, write32;
    (replace (v <? 0) with false by lia); (replace (v >? _) with false by lia); done.
Qed.

(** X12: for a value in [0, 2^w - 1], [writeW(offset, value)] does exactly
    what [write] does with the w/8 bytes of the value in the byte order of the
    host: the same result and the same state, on any object and for any
    offset. *)
Theorem writeW_is_write_of_bytes env w offset v s :
  0 <= v <= 2 ^ bits w - 1 ->
  writeW env w offset (PyInt v) s
  = write offset (PyBytes (encode (byteorder env) (nbytes w) v)) s.
Proof.
  intros Hv. destruct offset as [| o | | | |]; try (by destruct w).
  rewrite writeW_chain by done. unfold write. simpl. rewrite length_encode.
  apply bind_ext. intros off s1. apply bind_ext. intros _ s2.
  apply store_value_store_bytes.
Qed.

Lemma writeW_is_write_of_bytes_witness :
  0 <= 0x1234 <= 2 ^ bits W16 - 1
  /\ writeW example_env W16 (PyInt 0) (PyInt 0x1234) example_region
     = write (PyInt 0) (PyBytes (encode (byteorder example_env) (nbytes W16) 0x1234))
         example_region.
Proof.
  assert (Hv : 0 <= 0x1234 <= 2 ^ bits W16 - 1) by (vm_compute; split; discriminate).
  split; [exact Hv|].
  exact (writeW_is_write_of_bytes example_env W16 (PyInt 0) 0x1234 example_region Hv).
Defined.

(** ** After [close()] *)

Lemma refused_raise {A} e s : refused (raise e : M A) s.
Proof. by exists e. Qed.

Lemma refused_bind {A B} (m : M A) (k : A -> M B) s :
  pure m -> (forall x, refused (k x) s) -> refused (m ≫= k) s.
Proof.
  intros Hm Hk. unfold refused, mbind, M_bind, bind.
  specialize (Hm s). destruct (m s) as [[x|e] s1]; simpl in Hm; subst s1.
  - apply Hk.
  - by exists e.
Qed.

(** Without a mapping, every attempt to make a ctypes view is refused. *)
Lemma refused_view {A} sz off (k : cdata -> M A) s :
  mapping (self s) = None ->
  refused (m ← get_mapping; c ← from_buffer sz m off; k c) s.
Proof.
  intros H. unfold refused, get_mapping, from_buffer. munfold. rewrite H. by eexists.
Qed.

Ltac refuse H :=
  repeat first
    [ progress intros
    | apply refused_raise
    | apply (refused_view _ _ _ _ H)
    | apply refused_bind; [solve [auto with frame]|]
    | case_match ].

(** X13: once a [close()] has returned, no read or write returns any more:
    [read8], [read16], [read32], [read], [write8], [write16], [write32],
    [write] and [pointer] all raise, whatever their arguments, and change
    nothing. *)
Theorem accesses_after_close env s :
  fst (close s) = Return tt ->
  let s1 := snd (close s) in
  (forall w offset, refused (readW env w offset) s1)
  /\ (forall offset n, refused (read offset n) s1)
  /\ (forall w offset value, refused (writeW env w offset value) s1)
  /\ (forall offset data, refused (write offset data) s1)
  /\ refused pointer s1.
Proof.
  intros Hret s1. assert (H : mapping (self s1) = None) by (by apply close_returned_mapping).
  split; [|split; [|split; [|split]]].
  - intros [] offset; unfold readW, read8, read16, read32; refuse H.
  - intros offset n. unfold read. refuse H.
  - intros [] offset value; unfold writeW, write8, write16, write32; refuse H.
  - intros offset data. unfold write. refuse H.
  - unfold pointer. refuse H.
Qed.

Lemma accesses_after_close_witness :
  fst (close example_region) = Return tt
  /\ refused (readW example_env W8 (PyInt 0)) (snd (close example_region))
  /\ refused (write (PyInt 0) (PyBytes [Byte.x01])) (snd (close example_region))
  /\ refused pointer (snd (close example_region)).
Proof.
  assert (H : fst (close example_region) = Return tt) by (vm_compute; reflexivity).
  pose proof (accesses_after_close example_env example_region H) as (Hr & _ & _ & Hw & Hp).
  split; [exact H|]. split; [apply (Hr W8)|]. split; [apply Hw | exact Hp].
Defined.

(** ** Where the pointer and the offsets point *)



Lemma slice_map_seq (f : nat -> byte) off n len :
  (off + n <= len)%nat ->
  slice off n (map f (seq 0 len)) = map (fun i => f (off + i)%nat) (seq 0 n).
Proof.
  intros H. unfold slice. apply list_eq. intros i.
  destruct (decide (i < n)%nat) as [Hi|Hi].
  - rewrite lookup_take_lt, lookup_drop by done.
    rewrite !list_lookup_fmap, !lookup_seq_lt by lia. done.
  - rewrite lookup_take_ge by lia. symmetry. apply lookup_ge_None_2.
    rewrite length_map, length_seq. lia.
Qed.

(** X15: after a construction that the operating system grants, offset [o]
    of the region is physical address [physaddr + o]: [read(o, n)] returns
    the [n] bytes of physical memory from that address on, for every [o] from
    minus the offset adjustment up and every [n >= 0] with [o + n <= size]. *)
Theorem offsets_address_physical_memory env p sz s0 fd o n :
  dev_mem_open env = inr fd ->
  dev_mem_mmap env = None ->
  dev_mem_close env = None ->
  0 < SC_PAGESIZE env ->
  0 <= p ->
  0 <= n ->
  - (p mod SC_PAGESIZE env) <= o ->
  o + n <= sz ->
  exists s1,
    __init__ env (PyInt p) (PyInt sz) s0 = (Return tt, s1)
    /\ read (PyInt o) n s1
       = (Return (map (fun i => physmem env (p + o + Z.of_nat i)) (seq 0 (Z.to_nat n))), s1).
Proof.
  intros Hopen Hmmap Hclose Hps Hp Hn Hlo Hhi.
  pose proof (Z.mod_pos_bound p (SC_PAGESIZE env) Hps) as Hmod.
  set (a := p - p mod SC_PAGESIZE env).
  set (asz := sz + (p - a)).
  assert (Hasz0 : 0 <= asz) by (subst asz a; lia).
  assert (Ha0 : 0 <= a) by (subst a; pose proof (Z.mod_le p (SC_PAGESIZE env)); lia).
  eexists. split; [apply (init_returns env p sz s0 fd); try done; lia|].
  fold a. fold asz.
  set (r := fresh (dom (heap s0))).
  set (m := {| buf := map (fun i => physmem env (a + Z.of_nat i)) (seq 0 (Z.to_nat asz));
               closed := false; exports := 0 |}).
  set (s1 := {| self := _; heap := _ |}).
  assert (Hlen : Z.of_nat (length (buf m)) = asz)
    by (simpl; rewrite length_map, length_seq; lia).
  assert (Hm : heap s1 !! r = Some m) by apply lookup_insert_eq.
  assert (Hsz : _aligned_size (self s1) = Some (Z.of_nat (length (buf m))))
    by (rewrite Hlen; done).
  rewrite (read_open s1 p a r m eq_refl eq_refl Hsz eq_refl Hm eq_refl) by lia.
  do 2 f_equal. simpl.
  rewrite slice_map_seq by lia.
  apply map_ext. intros i. f_equal. lia.
Qed.

Lemma offsets_address_physical_memory_witness :
  dev_mem_open example_env = inr 3
  /\ dev_mem_mmap example_env = None
  /\ dev_mem_close example_env = None
  /\ 0 < SC_PAGESIZE example_env
  /\ 0 <= 0x1004
  /\ 0 <= 5
  /\ - (0x1004 mod SC_PAGESIZE example_env) <= -4
  /\ -4 + 5 <= 8
  /\ exists s1,
       __init__ example_env (PyInt 0x1004) (PyInt 8) (fresh_object ∅) = (Return tt, s1)
       /\ read (PyInt (-4)) 5 s1
          = (Return (map (fun i => physmem example_env (0x1004 + -4 + Z.of_nat i))
                         (seq 0 (Z.to_nat 5))), s1).
Proof.
  assert (H1 : 0 < SC_PAGESIZE example_env) by reflexivity.
  assert (H2 : 0 <= 0x1004) by (vm_compute; discriminate).
  assert (H3 : 0 <= 5) by (vm_compute; discriminate).
  assert (H4 : - (0x1004 mod SC_PAGESIZE example_env) <= -4) by (vm_compute; discriminate).
  assert (H5 : -4 + 5 <= 8) by (vm_compute; discriminate).
  split; [reflexivity|]. split; [reflexivity|]. split; [reflexivity|].
  split; [exact H1|]. split; [exact H2|]. split; [exact H3|]. split; [exact H4|].
  split; [exact H5|].
  exact (offsets_address_physical_memory example_env 0x1004 8 (fresh_object ∅) 3 (-4) 5
           eq_refl eq_refl eq_refl H1 H2 H3 H4 H5).
Defined.

(** ** When an access returns *)

Lemma store_value_return_inv env n off v s x s' :
  store_value env n off v s = (Return x, s') ->
  exists r m, mapping (self s) = Some r /\ heap s !! r = Some m /\ closed m = false
              /\ 0 <= off /\ off + Z.of_nat n <= Z.of_nat (length (buf m))
              /\ s' = snd (poke r (Z.to_nat off) (encode (byteorder env) n v) s).
Proof.
  unfold store_value. intros H.
  apply bind_return_inv in H as (src & s1 & Hsrc & H).
  unfold get_mapping in Hsrc. injection Hsrc as <- <-.
  apply bind_return_inv in H as (c & s2 & Hc & H).
  apply from_buffer_return_inv in Hc as (-> & r & m & Hr & Hm & Hlive & H0 & H1 & ->).
  unfold set_value, poke in H. simpl in H. injection H as _ <-.
  by exists r, m.
Qed.

Lemma store_bytes_return_inv off data s x s' :
  store_bytes off data s = (Return x, s') ->
  exists b r m, mapping (self s) = Some r /\ heap s !! r = Some m /\ closed m = false
                /\ 0 <= off /\ off + Z.of_nat (length b) <= Z.of_nat (length (buf m))
                /\ s' = snd (poke r (Z.to_nat off) b s).
Proof.
  unfold store_bytes. intros H.
  apply bind_return_inv in H as (b & s1 & Hb & H).
  pose proof (pure_return_inv _ _ _ _ (pure_bytearray data) Hb) as ->.
  apply bind_return_inv in H as (n & s1 & Hn & H).
  pose proof (pure_return_inv _ _ _ _ (pure_c_uint8_array _) Hn) as ->.
  unfold c_uint8_array in Hn. destruct (_ <? 0); [done|]. injection Hn as <-.
  apply bind_return_inv in H as (src & s1 & Hsrc & H).
  unfold get_mapping in Hsrc. injection Hsrc as <- <-.
  apply bind_return_inv in H as (c & s2 & Hc & H).
  apply from_buffer_return_inv in Hc as (-> & r & m & Hr & Hm & Hlive & H0 & H1 & ->).
  rewrite (write_loop_poke _ 0 b s m) in H by (simpl; done || lia).
  simpl in H. rewrite Nat.add_0_r in H. injection H as _ <-.
  by exists b, r, m.
Qed.

Lemma checked_return_inv {A} o n (access : Z -> M A) s x s' :
  (off ← _adjust_offset o; _validate_offset off n;; access off) s = (Return x, s') ->
  exists off, _adjust_offset o s = (Return off, s) /\ access off s = (Return x, s').
Proof.
  intros H. apply bind_return_inv in H as (off & s1 & Hadj & H).
  pose proof (pure_return_inv _ _ _ _ (pure_adjust_offset o) Hadj) as ->.
  apply bind_return_inv in H as ([] & s2 & Hval & H).
  pose proof (pure_return_inv _ _ _ _ (pure_validate_offset _ _) Hval) as ->.
  by exists off.
Qed.

(** A write that returns has stored some bytes, in bounds, into the mapping
    of the object. *)
Lemma writeW_return_inv env w offset value s x s' :
  writeW env w offset value s = (Return x, s') ->
  exists r m off bs, mapping (self s) = Some r /\ heap s !! r = Some m
                     /\ (off + length bs <= length (buf m))%nat
                     /\ s' = snd (poke r off bs s).
Proof.
  intros H.
  assert (H' : exists o v, (off ← _adjust_offset o;
                            _validate_offset off (Z.of_nat (nbytes w));;
                            store_value env (nbytes w) off v) s = (Return x, s')).
  { destruct offset as [| o | | | |]; try (by destruct w).
    destruct value as [| v | | | |]; try (by destruct w).
    exists o, v.
    destruct w; unfold writeW, write8, write16, write32 in H;
      destruct ((v <? 0) || _); done. }
  destruct H' as (o & v & H').
  apply checked_return_inv in H' as (off & _ & H').
  apply store_value_return_inv in H' as (r & m & Hr & Hm & _ & H0 & H1 & ->).
  exists r, m, (Z.to_nat off), (encode (byteorder env) (nbytes w) v).
  repeat split; try done. rewrite length_encode. lia.
Qed.

Lemma write_return_inv offset data s x s' :
  write offset data s = (Return x, s') ->
  exists r m off bs, mapping (self s) = Some r /\ heap s !! r = Some m
                     /\ (off + length bs <= length (buf m))%nat
                     /\ s' = snd (poke r off bs s).
Proof.
  intros H. destruct offset as [| o | | | |]; try done.
  unfold write in H. destruct (negb _); [done|].
  apply checked_return_inv in H as (off & _ & H).
  apply store_bytes_return_inv in H as (b & r & m & Hr & Hm & _ & H0 & H1 & ->).
  exists r, m, (Z.to_nat off), b. repeat split; try done. lia.
Qed.

Lemma is_open_poke r off bs s m :
  mapping (self s) = Some r ->
  heap s !! r = Some m ->
  (off + length bs <= length (buf m))%nat ->
  is_open (snd (poke r off bs s)) = is_open s.
Proof.
  intros Hr Hm H. unfold is_open. simpl. rewrite Hr, lookup_alter_eq, Hm. simpl.
  by rewrite length_store.
Qed.

(** X16: on an open region the accesses that return are exactly those within
    the mapping: at an integer offset, [readW], [writeW] of a value in
    range, and [read] of a length [n >= 0] return if and only if the adjusted
    offset is not negative and, with the bytes accessed added, does not
    exceed the aligned size. *)
Theorem access_returns_iff env s p a asz o :
  is_open s = true ->
  _physaddr (self s) = Some p ->
  _aligned_physaddr (self s) = Some a ->
  _aligned_size (self s) = Some asz ->
  (forall w,
     (exists v, readW env w (PyInt o) s = (Return v, s))
     <-> 0 <= o + (p - a) /\ o + (p - a) + bits w / 8 <= asz)
  /\ (forall w v,
        0 <= v <= 2 ^ bits w - 1 ->
        (exists s', writeW env w (PyInt o) (PyInt v) s = (Return tt, s'))
        <-> 0 <= o + (p - a) /\ o + (p - a) + bits w / 8 <= asz)
  /\ (forall n,
        0 <= n ->
        (exists bs, read (PyInt o) n s = (Return bs, s))
        <-> 0 <= o + (p - a) /\ o + (p - a) + n <= asz).
Proof.
  intros Hopen Hp Ha Hasz.
  destruct (is_open_inv s Hopen) as (r & m & Hr & Hm & Hlive & Hlen).
  assert (Hasz' := Hasz). rewrite Hlen in Hasz'. injection Hasz' as <-.
  pose proof (adjust_offset_eval s p a Hp Ha o) as Hadj.
  split; [|split].
  - intros w. rewrite bits_nbytes. split.
    + intros (v & H). apply readW_return_inv in H as (o' & off & Ho & Hadj' & _ & H).
      injection Ho as <-. rewrite Hadj in Hadj'. injection Hadj' as <-.
      apply load_return_inv in H as (_ & r' & m' & Hr' & Hm' & _ & H0 & H1 & _).
      rewrite Hr in Hr'. injection Hr' as <-. rewrite Hm in Hm'. injection Hm' as <-.
      done.
    + intros [H0 H1]. eexists. by apply (readW_open env s p a r m).
  - intros w v Hv. rewrite bits_nbytes. split.
    + intros (s' & H). rewrite writeW_chain in H by done.
      apply checked_return_inv in H as (off & Hadj' & H).
      rewrite Hadj in Hadj'. injection Hadj' as <-.
      apply store_value_return_inv in H as (r' & m' & Hr' & Hm' & _ & H0 & H1 & _).
      rewrite Hr in Hr'. injection Hr' as <-. rewrite Hm in Hm'. injection Hm' as <-.
      done.
    + intros [H0 H1]. eexists. by apply (writeW_open env s p a r m).
  - intros n Hn. split.
    + intros (bs & H). apply read_return_inv in H as (o' & off & Ho & Hadj' & _ & H).
      injection Ho as <-. rewrite Hadj in Hadj'. injection Hadj' as <-.
      unfold load_bytes, c_uint8_array in H.
      replace (n <? 0) with false in H by lia.
      change (mret n ≫= ?k) with (k n) in H.
      apply bind_return_inv in H as (src & s1 & Hsrc & H).
      unfold get_mapping in Hsrc. injection Hsrc as <- <-.
      apply bind_return_inv in H as (c & s2 & Hc & _).
      apply from_buffer_return_inv in Hc as (_ & r' & m' & Hr' & Hm' & _ & H0 & H1 & _).
      rewrite Hr in Hr'. injection Hr' as <-. rewrite Hm in Hm'. injection Hm' as <-.
      done.
    + intros [H0 H1]. eexists. by apply (read_open s p a r m).
Qed.

Lemma access_returns_iff_witness :
  is_open example_region = true
  /\ metadata example_region = (Some 0x1004, Some 8, Some 0x1000, Some 12)
  /\ ((exists v, readW example_env W32 (PyInt (-5)) example_region
                 = (Return v, example_region))
      <-> 0 <= -5 + (0x1004 - 0x1000) /\ -5 + (0x1004 - 0x1000) + bits W32 / 8 <= 12).
Proof.
  pose proof (access_returns_iff example_env example_region 0x1004 0x1000 12 (-5)
                eq_refl eq_refl eq_refl eq_refl) as (Hr & _).
  split; [reflexivity|]. split; [reflexivity|]. apply Hr.
Defined.

(** ** The region stays open *)

Lemma is_open_cast_pointer c s : is_open (snd (cast_pointer c s)) = is_open s.
Proof.
  unfold is_open. simpl. destruct (mapping (self s)) as [r|]; [|done].
  destruct (decide (b_obj c = r)) as [->|Hne].
  - rewrite lookup_alter_eq. by destruct (heap s !! r).
  - by rewrite lookup_alter_ne.
Qed.

Lemma is_open_pointer s : is_open (snd (pointer s)) = is_open s.
Proof.
  unfold pointer. munfold.
  pose proof (pure_from_buffer 1 (mapping (self s)) 0 s) as Hp.
  destruct (from_buffer 1 (mapping (self s)) 0 s) as [[c|e] s1]; simpl in Hp; subst s1;
    [|done].
  apply is_open_cast_pointer.
Qed.

Lemma is_open_gc_collect s : is_open (snd (gc_collect s)) = is_open s.
Proof.
  unfold is_open. simpl. destruct (mapping (self s)) as [r|]; [|done].
  rewrite lookup_fmap. by destruct (heap s !! r).
Qed.

Lemma exec_is_open env c s :
  is_release c = false -> is_open s = true -> is_open (exec env c s) = true.
Proof.
  intros Hc Hopen.
  assert (Hw : forall (m : M unit),
             fails_cleanly m ->
             (forall x s', m s = (Return x, s') ->
                exists r m' off bs, mapping (self s) = Some r /\ heap s !! r = Some m'
                                    /\ (off + length bs <= length (buf m'))%nat
                                    /\ s' = snd (poke r off bs s)) ->
             is_open (snd (m s)) = true).
  { intros m Hclean Hinv. destruct (Hclean s) as [(x & s' & E) | (e & E)]; rewrite E; [|done].
    destruct (Hinv x s' E) as (r & m' & off & bs & Hr & Hm & Hfit & ->).
    change (is_open (snd (poke r off bs s)) = true).
    by rewrite (is_open_poke r off bs s m'). }
  destruct (writes_fail_cleanly_aux env) as [HcW Hcw].
  destruct c; cbn [exec is_release] in *; try discriminate.
  - by rewrite pure_read32.
  - by rewrite pure_read16.
  - by rewrite pure_read8.
  - by rewrite pure_read.
  - apply Hw; [apply (HcW W32) | apply (writeW_return_inv env W32)].
  - apply Hw; [apply (HcW W16) | apply (writeW_return_inv env W16)].
  - apply Hw; [apply (HcW W8) | apply (writeW_return_inv env W8)].
  - apply Hw; [apply Hcw | apply write_return_inv].
  - done.
  - by rewrite pure_base.
  - by rewrite pure_size.
  - by rewrite is_open_pointer.
  - by rewrite is_open_gc_collect.
Qed.

(** X17: an open region stays open, with a live mapping of the aligned size,
    through any sequence of calls other than [close()] and [__exit__], with
    passes of the cycle collector in between: reads and writes, failed or
    not, never release or resize the mapping. *)
Theorem region_stays_open env cs s :
  forallb (fun c => negb (is_release c)) cs = true ->
  is_open s = true ->
  is_open (run env cs s) = true.
Proof.
  revert s. induction cs as [|c cs IH]; intros s Hcs Hopen; [done|].
  simpl in Hcs. apply andb_true_iff in Hcs as [Hc Hcs]. apply negb_true_iff in Hc.
  simpl. apply IH; [done|]. by apply exec_is_open.
Qed.

Lemma region_stays_open_witness :
  forallb (fun c => negb (is_release c))
    [Write32 (PyInt 0) (PyInt 0xDEADBEEF); Read8 (PyInt 100); Write (PyInt 9) PyNone;
     Enter; Pointer; Write (PyInt 4) (PyBytes [Byte.x01; Byte.x02])] = true
  /\ is_open example_region = true
  /\ is_open (run example_env
                [Write32 (PyInt 0) (PyInt 0xDEADBEEF); Read8 (PyInt 100);
                 Write (PyInt 9) PyNone; Enter; Pointer;
                 Write (PyInt 4) (PyBytes [Byte.x01; Byte.x02])] example_region) = true.
Proof.
  split; [reflexivity|]. split; [reflexivity|].
  exact (region_stays_open example_env
           [Write32 (PyInt 0) (PyInt 0xDEADBEEF); Read8 (PyInt 100); Write (PyInt 9) PyNone;
            Enter; Pointer; Write (PyInt 4) (PyBytes [Byte.x01; Byte.x02])]
           example_region eq_refl eq_refl).
Defined.

(** ** Empty accesses *)

(** X18: on an open region, writing no bytes ([b""] or [[]]) or reading 0
    bytes at an integer offset whose adjusted offset lies in
    [0, aligned_size], the end included, returns and changes nothing. *)
Theorem empty_accesses s p a asz o :
  is_open s = true ->
  _physaddr (self s) = Some p ->
  _aligned_physaddr (self s) = Some a ->
  _aligned_size (self s) = Some asz ->
  0 <= o + (p - a) <= asz ->
  write (PyInt o) (PyBytes []) s = (Return tt, s)
  /\ write (PyInt o) (PyList []) s = (Return tt, s)
  /\ read (PyInt o) 0 s = (Return [], s).
Proof.
  intros Hopen Hp Ha Hasz [H0 H1].
  destruct (is_open_inv s Hopen) as (r & m & Hr & Hm & Hlive & Hlen).
  assert (Hasz' := Hasz). rewrite Hlen in Hasz'. injection Hasz' as <-.
  split; [|split].
  - rewrite (write_open s p a r m Hp Ha Hlen Hr Hm Hlive o _ []) by (simpl; auto || lia).
    by rewrite poke_nil.
  - rewrite (write_open s p a r m Hp Ha Hlen Hr Hm Hlive o _ [])
      by (simpl; (right; right; reflexivity) || lia).
    by rewrite poke_nil.
  - by rewrite (read_open s p a r m Hp Ha Hlen Hr Hm Hlive) by lia.
Qed.

Lemma empty_accesses_witness :
  is_open example_region = true
  /\ metadata example_region = (Some 0x1004, Some 8, Some 0x1000, Some 12)
  /\ 0 <= 8 + (0x1004 - 0x1000) <= 12
  /\ write (PyInt 8) (PyBytes []) example_region = (Return tt, example_region)
  /\ write (PyInt 8) (PyList []) example_region = (Return tt, example_region)
  /\ read (PyInt 8) 0 example_region = (Return [], example_region).
Proof.
  assert (H : 0 <= 8 + (0x1004 - 0x1000) <= 12) by (vm_compute; split; discriminate).
  split; [reflexivity|]. split; [reflexivity|]. split; [exact H|].
  exact (empty_accesses example_region 0x1004 0x1000 12 8 eq_refl eq_refl eq_refl eq_refl H).
Defined.

(** ** Wide reads in terms of [read8] *)

Lemma slice_cons off n data x :
  data !! off = Some x -> slice off (S n) data = x :: slice (S off) n data.
Proof. intros H. unfold slice. by rewrite (drop_S _ _ _ H). Qed.

Lemma slice_4 off data :
  (off + 4 <= length data)%nat ->
  exists b0 b1 b2 b3,
    slice off 4 data = [b0; b1; b2; b3]
    /\ slice off 1 data = [b0] /\ slice (S off) 1 data = [b1]
    /\ slice (S (S off)) 1 data = [b2] /\ slice (S (S (S off))) 1 data = [b3]
    /\ slice off 2 data = [b0; b1] /\ slice (S (S off)) 2 data = [b2; b3].
Proof.
  intros H.
  destruct (lookup_lt_is_Some_2 data off) as [b0 E0]; [lia|].
  destruct (lookup_lt_is_Some_2 data (S off)) as [b1 E1]; [lia|].
  destruct (lookup_lt_is_Some_2 data (S (S off))) as [b2 E2]; [lia|].
  destruct (lookup_lt_is_Some_2 data (S (S (S off)))) as [b3 E3]; [lia|].
  exists b0, b1, b2, b3.
  repeat split;
    repeat first [ rewrite (slice_cons _ _ _ _ E0) | rewrite (slice_cons _ _ _ _ E1)
                 | rewrite (slice_cons _ _ _ _ E2) | rewrite (slice_cons _ _ _ _ E3) ];
    done.
Qed.

(** X19: on an open region, a [read32] in bounds is made of the four
    [read8] of its bytes and of the two [read16] of its halves, the byte at
    the lowest offset being the least significant on a little-endian host and
    the most significant on a big-endian one. *)
Theorem read32_of_read8 env s p a asz o :
  is_open s = true ->
  _physaddr (self s) = Some p ->
  _aligned_physaddr (self s) = Some a ->
  _aligned_size (self s) = Some asz ->
  0 <= o + (p - a) ->
  o + (p - a) + 4 <= asz ->
  exists b0 b1 b2 b3 h0 h1,
    read8 env (PyInt o) s = (Return b0, s)
    /\ read8 env (PyInt (o + 1)) s = (Return b1, s)
    /\ read8 env (PyInt (o + 2)) s = (Return b2, s)
    /\ read8 env (PyInt (o + 3)) s = (Return b3, s)
    /\ read16 env (PyInt o) s = (Return h0, s)
    /\ read16 env (PyInt (o + 2)) s = (Return h1, s)
    /\ h0 = match byteorder env with Little => b0 + 2 ^ 8 * b1 | Big => b1 + 2 ^ 8 * b0 end
    /\ h1 = match byteorder env with Little => b2 + 2 ^ 8 * b3 | Big => b3 + 2 ^ 8 * b2 end
    /\ read32 env (PyInt o) s
       = (Return match byteorder env with
                 | Little => h0 + 2 ^ 16 * h1
                 | Big => h1 + 2 ^ 16 * h0
                 end, s).
Proof.
  intros Hopen Hp Ha Hasz H0 H1.
  destruct (is_open_inv s Hopen) as (r & m & Hr & Hm & Hlive & Hlen).
  assert (Hasz' := Hasz). rewrite Hlen in Hasz'. injection Hasz' as <-.
  set (off := Z.to_nat (o + (p - a))).
  destruct (slice_4 off (buf m)) as (c0 & c1 & c2 & c3 & E4 & E0 & E1 & E2 & E3 & F0 & F1);
    [lia|].
  assert (R : forall w k, (k + nbytes w <= 4)%nat ->
                readW env w (PyInt (o + Z.of_nat k)) s
                = (Return (decode (byteorder env) (slice (off + k) (nbytes w) (buf m))), s)).
  { intros w k Hk.
    rewrite (readW_open env s p a r m Hp Ha Hlen Hr Hm Hlive) by (destruct w; simpl in *; lia).
    by replace (Z.to_nat (o + Z.of_nat k + (p - a))) with (off + k)%nat by (subst off; lia). }
  exists (Z_of_byte c0), (Z_of_byte c1), (Z_of_byte c2), (Z_of_byte c3).
  eexists _, _.
  pose proof (R W8 0%nat ltac:(simpl; lia)) as R0.
  pose proof (R W8 1%nat ltac:(simpl; lia)) as R1.
  pose proof (R W8 2%nat ltac:(simpl; lia)) as R2.
  pose proof (R W8 3%nat ltac:(simpl; lia)) as R3.
  pose proof (R W16 0%nat ltac:(simpl; lia)) as S0.
  pose proof (R W16 2%nat ltac:(simpl; lia)) as S1.
  pose proof (R W32 0%nat ltac:(simpl; lia)) as T0.
  change (Z.of_nat 0) with 0 in R0, S0, T0. change (Z.of_nat 1) with 1 in R1.
  change (Z.of_nat 2) with 2 in R2, S1. change (Z.of_nat 3) with 3 in R3.
  change (nbytes W8) with 1%nat in R0, R1, R2, R3.
  change (nbytes W16) with 2%nat in S0, S1. change (nbytes W32) with 4%nat in T0.
  rewrite Z.add_0_r, Nat.add_0_r in R0, S0, T0.
  replace (off + 1)%nat with (S off) in R1 by lia.
  replace (off + 2)%nat with (S (S off)) in R2, S1 by lia.
  replace (off + 3)%nat with (S (S (S off))) in R3 by lia.
  rewrite E0 in R0. rewrite E1 in R1. rewrite E2 in R2. rewrite E3 in R3.
  rewrite F0 in S0. rewrite F1 in S1. rewrite E4 in T0.
  change (read8 env) with (readW env W8).
  change (read16 env) with (readW env W16).
  change (read32 env) with (readW env W32).
  rewrite R0, R1, R2, R3, S0, S1, T0.
  split; [destruct (byteorder env); simpl; do 2 f_equal; lia|].
  split; [destruct (byteorder env); simpl; do 2 f_equal; lia|].
  split; [destruct (byteorder env); simpl; do 2 f_equal; lia|].
  split; [destruct (byteorder env); simpl; do 2 f_equal; lia|].
  split; [reflexivity|].
  split; [reflexivity|].
  split; [destruct (byteorder env); simpl; lia|].
  split; [destruct (byteorder env); simpl; lia|].
  destruct (byteorder env); simpl; do 2 f_equal; lia.
Qed.

Lemma read32_of_read8_witness :
  is_open example_region = true
  /\ metadata example_region = (Some 0x1004, Some 8, Some 0x1000, Some 12)
  /\ 0 <= 4 + (0x1004 - 0x1000)
  /\ 4 + (0x1004 - 0x1000) + 4 <= 12
  /\ exists b0 b1 b2 b3 h0 h1,
       read8 example_env (PyInt 4) example_region = (Return b0, example_region)
       /\ read8 example_env (PyInt (4 + 1)) example_region = (Return b1, example_region)
       /\ read8 example_env (PyInt (4 + 2)) example_region = (Return b2, example_region)
       /\ read8 example_env (PyInt (4 + 3)) example_region = (Return b3, example_region)
       /\ read16 example_env (PyInt 4) example_region = (Return h0, example_region)
       /\ read16 example_env (PyInt (4 + 2)) example_region = (Return h1, example_region)
       /\ h0 = match byteorder example_env with
               | Little => b0 + 2 ^ 8 * b1 | Big => b1 + 2 ^ 8 * b0 end
       /\ h1 = match byteorder example_env with
               | Little => b2 + 2 ^ 8 * b3 | Big => b3 + 2 ^ 8 * b2 end
       /\ read32 example_env (PyInt 4) example_region
          = (Return match byteorder example_env with
                    | Little => h0 + 2 ^ 16 * h1
                    | Big => h1 + 2 ^ 16 * h0
                    end, example_region).
Proof.
  assert (H0 : 0 <= 4 + (0x1004 - 0x1000)) by (vm_compute; discriminate).
  assert (H1 : 4 + (0x1004 - 0x1000) + 4 <= 12) by (vm_compute; discriminate).
  split; [reflexivity|]. split; [reflexivity|]. split; [exact H0|]. split; [exact H1|].
  exact (read32_of_read8 example_env example_region 0x1004 0x1000 12 4
           eq_refl eq_refl eq_refl eq_refl H0 H1).
Defined.
